(** * retryit: the retry controller of [src/retryit.ts]

    A shallow embedding of [retry] and of its inner [retryPromise] loop, and
    the properties of the attempt loop, of its waits, of the fallback and
    of the race against the timeout timer.

    Reading guide.
    - [retries] and the attempt counter are integers ([Z], so that a
      negative [retries] can be written), and [Module Full] follows a
      [retries] that is [NaN] as well; [delay], [currentDelay] and
      [timeout] are rationals. The doubling and the jitter of the back-off
      are computed exactly there, where the source computes in binary64: no
      property stated for every run rests on that arithmetic, and the
      examples that show delays compute on numbers that binary64 holds
      exactly. [Module Binary64] is the back-off of lines 58 and 59 on
      binary64 numbers.
    - The collaborators ([task], [fallback], [Math.random]) are opaque to the
      controller: each is given by the outcome of its successive invocations.
      Every invocation settles (it fulfils or rejects).
    - The calls of [onRetry] and [retryCondition] are recorded, with their
      arguments, in the trace of the run.
    - [Section Retry] is the loop on the runs in which nothing is thrown
      inside the [catch] block: the callbacks return and [.message] can be
      read on every rejection. [Module Full] is the loop with every way out
      of the [catch] block; [full_retry_normal] says where the two are the
      same. *)

From Equations.Prop Require Import Equations Logic.
From Stdlib Require Import String ZArith QArith List Bool Arith Lia.
From Stdlib Require PrimFloat.
Import ListNotations.

Set Implicit Arguments.

(** ** Promises and thrown values *)

(** The state a promise settles in. *)
Inductive settled (A X : Type) : Type :=
| Fulfilled (value : A)
| Rejected (reason : X).
Arguments Fulfilled {A X} value.
Arguments Rejected {A X} reason.

(** What [retry] can reject with: a value raised by a collaborator and
    re-thrown as it is, an [Error] object that [retry] itself creates with
    [new Error(message)], or the [TypeError] that the engine raises when
    [.message] is read on [null] or [undefined]. *)
Inductive thrown (E : Type) : Type :=
| Raised (error : E)
| NewError (text : string)
| TypeError.
Arguments Raised {E} error.
Arguments NewError {E} text.
Arguments TypeError {E}.

(** An asynchronous zero-argument operation, [() => Promise<A>], rejecting
    with values of [E]: [op k] is how its invocation number [k] (from 0)
    settles. *)
Definition operation (A E : Type) : Type := nat -> settled A E.

(** ** Observable events *)

(** The lines written to the console, template by template. *)
Inductive Message : Type :=
| TryingTask (n : Z)                          (* Attempt n: Trying task *)
| ConditionFailed                             (* Condition failed, aborting retries *)
| ExceededRetries (retries : Z)               (* Exceeded retries (retries). *)
| ExecutingFallback                           (* Executing fallback *)
| TaskFailed (attempt : Z) (text : string)    (* Attempt n: Task failed. Error: text *)
| WaitingBeforeRetry (attempt : Z) (ms : Q).  (* Attempt n: Waiting for ms before retry. *)

(** What a run does to the outside, in the order it does it. *)
Inductive Event (E : Type) : Type :=
| ConsoleLog (m : Message)
| ConsoleError (m : Message)
| TaskCall                                    (* await task() *)
| RetryConditionCall (error : E)              (* retryCondition(error) *)
| OnRetryCall (attempt : Z) (error : E)       (* onRetry(attempt, error) *)
| SetTimeout (ms : Q)                         (* await new Promise(r => setTimeout(r, ms)) *)
| MathRandom                                  (* Math.random() *)
| FallbackCall.                               (* await fallback() *)
Arguments ConsoleLog {E} m.
Arguments ConsoleError {E} m.
Arguments TaskCall {E}.
Arguments RetryConditionCall {E} error.
Arguments OnRetryCall {E} attempt error.
Arguments SetTimeout {E} ms.
Arguments MathRandom {E}.
Arguments FallbackCall {E}.

Section Trace.
Context {E : Type}.

Definition isTaskCall (ev : Event E) : bool :=
  match ev with TaskCall => true | _ => false end.
Definition isFallbackCall (ev : Event E) : bool :=
  match ev with FallbackCall => true | _ => false end.
Definition isMathRandom (ev : Event E) : bool :=
  match ev with MathRandom => true | _ => false end.
Definition isRetryConditionCall (ev : Event E) : bool :=
  match ev with RetryConditionCall _ => true | _ => false end.
(** The points at which the loop is suspended on a promise. *)
Definition isAwait (ev : Event E) : bool :=
  match ev with TaskCall | SetTimeout _ | FallbackCall => true | _ => false end.

(** Number of invocations of the task. *)
Definition invocations (tr : list (Event E)) : nat :=
  List.length (filter isTaskCall tr).
(** Number of invocations of the fallback. *)
Definition fallbackCalls (tr : list (Event E)) : nat :=
  List.length (filter isFallbackCall tr).
(** Number of draws of [Math.random()]. *)
Definition draws (tr : list (Event E)) : nat :=
  List.length (filter isMathRandom tr).
(** Number of suspension points passed. *)
Definition awaits (tr : list (Event E)) : nat :=
  List.length (filter isAwait tr).

(** The calls of [onRetry], with their arguments. *)
Fixpoint onRetryCalls (tr : list (Event E)) : list (Z * E) :=
  match tr with
  | [] => []
  | OnRetryCall n e :: tr' => (n, e) :: onRetryCalls tr'
  | _ :: tr' => onRetryCalls tr'
  end.

(** The arguments of the calls of [retryCondition]. *)
Fixpoint retryConditionCalls (tr : list (Event E)) : list E :=
  match tr with
  | [] => []
  | RetryConditionCall e :: tr' => e :: retryConditionCalls tr'
  | _ :: tr' => retryConditionCalls tr'
  end.

(** The inter-attempt delays, as handed to [setTimeout]. *)
Fixpoint delays (tr : list (Event E)) : list Q :=
  match tr with
  | [] => []
  | SetTimeout ms :: tr' => ms :: delays tr'
  | _ :: tr' => delays tr'
  end.
End Trace.

(** ** The options and the state of a run *)

(** [interface RetryOptions]; an optional field is an [option]. [onRetry]
    returns nothing that the loop uses: the field tells whether a callback
    is supplied, and each call is an [OnRetryCall] of the trace. *)
Record RetryOptions (T E : Type) : Type := {
  retries : Z;
  delay : Q;
  exponentialBackoff : option bool;
  onRetry : bool;
  retryCondition : option (E -> bool);
  timeout : option Q;
  fallback : option (operation T E)
}.

(** The two variables [retry] declares with [let], and the trace so far. *)
Record State (E : Type) : Type := {
  attempt : Z;
  currentDelay : Q;
  trace : list (Event E)
}.

(** What one turn of the [while] body ends with: the promise of
    [retryPromise] settles ([return] or [throw]), or the loop goes round. *)
Inductive Step (T E : Type) : Type :=
| Settle (result : settled T (thrown E)) (s : State E)
| Continue (s : State E).
Arguments Settle {T E} result s.
Arguments Continue {T E} s.

(** JavaScript truthiness of an optional number (no NaN among rationals). *)
Definition truthy (n : option Q) : bool :=
  match n with
  | None => false
  | Some x => negb (Qeq_bool x 0)
  end.

Section Retry.
Context {T E : Type}.

(** [(error as Error).message], for rejections that have one. *)
Variable message : E -> string.
(** [Math.random()]: the value of draw number [k]. *)
Variable random : nat -> Q.
(** The event loop: [Some i] when the callback of the timeout timer runs
    while the attempt loop is suspended at its await number [i] (from 0),
    [None] when it does not run before the loop has settled. *)
Variable timerFiresAt : option nat.

Variable task : operation T E.
Variable options : RetryOptions T E.

Definition emit (ev : Event E) (s : State E) : State E :=
  {| attempt := attempt s; currentDelay := currentDelay s;
     trace := trace s ++ [ev] |}.

Definition setAttempt (n : Z) (s : State E) : State E :=
  {| attempt := n; currentDelay := currentDelay s; trace := trace s |}.

Definition setCurrentDelay (d : Q) (s : State E) : State E :=
  {| attempt := attempt s; currentDelay := d; trace := trace s |}.

(** The defaults of the destructuring at the head of [retry]. *)
Definition exponentialBackoff' : bool :=
  match exponentialBackoff options with Some b => b | None => false end.
Definition retryCondition' : E -> bool :=
  match retryCondition options with Some f => f | None => fun _ => true end.

(** [let attempt = 0; let currentDelay = delay;] *)
Definition initial : State E :=
  {| attempt := 0; currentDelay := delay options; trace := [] |}.

(** [if (exponentialBackoff) { currentDelay *= 2;
     currentDelay += Math.random() * 100; }] *)
Definition backoff (s : State E) : State E :=
  if exponentialBackoff' then
    let s := setCurrentDelay (currentDelay s * 2) s in
    let r := random (draws (trace s)) in
    let s := emit MathRandom s in
    setCurrentDelay (currentDelay s + r * 100) s
  else s.

(** The [catch (error)] block, when nothing is thrown inside it:
    [retryCondition] and [onRetry] return and [error] has a [.message]
    ([Full.catchBlock] has the other ways out). *)
Definition catchBlock (error : E) (s : State E) : Step T E :=
  let s := emit (RetryConditionCall error) s in
  if negb (retryCondition' error) then
    let s := emit (ConsoleError ConditionFailed) s in
    Settle (Rejected (Raised error)) s
  else
    let s := setAttempt (attempt s + 1) s in
    if (attempt s >? retries options)%Z then
      let s := emit (ConsoleError (ExceededRetries (retries options))) s in
      match fallback options with
      | Some fb =>
          let s := emit (ConsoleLog ExecutingFallback) s in
          match fb (fallbackCalls (trace s)) with
          | Fulfilled v => Settle (Fulfilled v) (emit FallbackCall s)
          | Rejected e => Settle (Rejected (Raised e)) (emit FallbackCall s)
          end
      | None => Settle (Rejected (Raised error)) s
      end
    else
      let s := emit (ConsoleLog (TaskFailed (attempt s) (message error))) s in
      let s := if onRetry options
               then emit (OnRetryCall (attempt s) error) s else s in
      let s := emit (ConsoleLog (WaitingBeforeRetry (attempt s) (currentDelay s))) s in
      let s := emit (SetTimeout (currentDelay s)) s in
      Continue (backoff s).

(** The body of [while (attempt <= retries)]: the [try] block, then the
    [catch] block when the task rejects. *)
Definition iteration (s : State E) : Step T E :=
  let s := emit (ConsoleLog (TryingTask (attempt s + 1))) s in
  match task (invocations (trace s)) with
  | Fulfilled v => Settle (Fulfilled v) (emit TaskCall s)
  | Rejected error => catchBlock error (emit TaskCall s)
  end.

(** [const retryPromise = async () => { while (attempt <= retries) {...}
     throw new Error('Retry failed unexpectedly'); }], from the state [s]
    at the head of the loop. The loop goes round only after [attempt] has
    grown and is still within [retries]: that is its measure. *)
Equations? retryLoop (s : State E) : settled T (thrown E) * State E
  by wf (Z.to_nat (retries options + 1 - attempt s)) lt :=
  retryLoop s with inspect (attempt s <=? retries options)%Z := {
    | exist _ true Hguard with inspect (iteration s) := {
        | exist _ (Settle r s') _ := (r, s');
        | exist _ (Continue s') Hturn := retryLoop s' };
    | exist _ false _ :=
        (Rejected (NewError "Retry failed unexpectedly"), s) }.
Proof.
  apply Z.leb_le in Hguard.
  unfold iteration in Hturn.
  destruct (task _) as [v|error]; [discriminate|].
  unfold catchBlock in Hturn.
  destruct (negb (retryCondition' error)); [discriminate|].
  cbn [attempt setAttempt emit] in Hturn.
  destruct (Z.gtb_spec (attempt s + 1) (retries options)).
  - destruct (fallback options) as [fb|]; [|discriminate].
    destruct (fb _); discriminate.
  - injection Hturn as <-. unfold backoff.
    destruct exponentialBackoff', (onRetry options); cbn; lia.
Qed.

Definition retryPromise : settled T (thrown E) * State E :=
  retryLoop initial.

(** [retry]: the promise it returns settles as the first component; the
    second is the state the attempt loop ends in, which the race does not
    stop. *)
Definition retry : settled T (thrown E) * State E :=
  let run := retryPromise in
  if truthy (timeout options) then
    (* Promise.race([retryPromise(), timeoutPromise]) *)
    match timerFiresAt with
    | Some i =>
        if (i <? awaits (trace (snd run)))%nat
        then (Rejected (NewError "Retry timeout exceeded"), snd run)
        else run
    | None => run
    end
  else run.

(** Whether the timeout timer is armed and its callback runs before the
    attempt loop, whose whole trace is [tr], has settled. *)
Definition timerWins (tr : list (Event E)) : bool :=
  truthy (timeout options) &&
  match timerFiresAt with
  | Some i => (i <? awaits tr)%nat
  | None => false
  end.

(** *** Reading a run *)

(** The values the first [n] invocations of the task reject with. *)
Fixpoint rejections (n : nat) : list E :=
  match n with
  | O => []
  | S m => rejections m ++
           match task m with Rejected e => [e] | Fulfilled _ => [] end
  end.

(** The first [n] invocations of the task all reject, each with an error
    that [retryCondition] accepts. *)
Definition failsRetryably (n : nat) : Prop :=
  forall i, (i < n)%nat ->
            exists e, task i = Rejected e /\ retryCondition' e = true.

(** The state [s] extended by the events [evs], with new values of the
    two variables. *)
Definition after (s : State E) (a : Z) (d : Q) (evs : list (Event E))
  : State E :=
  {| attempt := a; currentDelay := d; trace := trace s ++ evs |}.

(** What the settled fallback makes of the promise of [retryPromise]. *)
Definition ofFallback (r : settled T E) : settled T (thrown E) :=
  match r with
  | Fulfilled v => Fulfilled v
  | Rejected e => Rejected (Raised e)
  end.

End Retry.

(** [l] paired with the attempt numbers [n], [n + 1], ... *)
Fixpoint numberedFrom {E : Type} (n : Z) (l : list E) : list (Z * E) :=
  match l with
  | [] => []
  | e :: l' => (n, e) :: numberedFrom (n + 1) l'
  end.

(** [l] paired with the attempt numbers 1, 2, ... *)
Definition numbered {E : Type} (l : list E) : list (Z * E) :=
  numberedFrom 1 l.

(** The attempts that failed and were retried: an attempt is followed by
    another one only after it failed, so these are all the invocations of
    the task but the last. *)
Definition retriedFailures {E : Type} (tr : list (Event E)) : nat :=
  pred (invocations tr).

(** Whether the run reported that the retries are exhausted. *)
Definition isExceeded {E : Type} (ev : Event E) : bool :=
  match ev with
  | ConsoleError (ExceededRetries _) => true
  | _ => false
  end.

Definition exhausted {E : Type} (tr : list (Event E)) : bool :=
  existsb isExceeded tr.

Section Reading.
Context {T E : Type}.
Variable message : E -> string.
Variable random : nat -> Q.
Variable task : operation T E.
Variable options : RetryOptions T E.

(** One turn of the loop, case by case: what [iteration] does from the
    state [s] at the head of the loop, by the outcome of the task, the
    verdict of [retryCondition] and the budget left. *)
Inductive Turn (s : State E) : Step T E -> Prop :=
| turn_fulfilled v :
    task (invocations (trace s)) = Fulfilled v ->
    Turn s (Settle (Fulfilled v)
              (after s (attempt s) (currentDelay s)
                 [ConsoleLog (TryingTask (attempt s + 1)); TaskCall]))
| turn_aborted e :
    task (invocations (trace s)) = Rejected e ->
    retryCondition' options e = false ->
    Turn s (Settle (Rejected (Raised e))
              (after s (attempt s) (currentDelay s)
                 [ConsoleLog (TryingTask (attempt s + 1)); TaskCall;
                  RetryConditionCall e; ConsoleError ConditionFailed]))
| turn_exhausted e :
    task (invocations (trace s)) = Rejected e ->
    retryCondition' options e = true ->
    (retries options < attempt s + 1)%Z ->
    fallback options = None ->
    Turn s (Settle (Rejected (Raised e))
              (after s (attempt s + 1) (currentDelay s)
                 [ConsoleLog (TryingTask (attempt s + 1)); TaskCall;
                  RetryConditionCall e;
                  ConsoleError (ExceededRetries (retries options))]))
| turn_fallback e fb :
    task (invocations (trace s)) = Rejected e ->
    retryCondition' options e = true ->
    (retries options < attempt s + 1)%Z ->
    fallback options = Some fb ->
    Turn s (Settle (ofFallback (fb (fallbackCalls (trace s))))
              (after s (attempt s + 1) (currentDelay s)
                 [ConsoleLog (TryingTask (attempt s + 1)); TaskCall;
                  RetryConditionCall e;
                  ConsoleError (ExceededRetries (retries options));
                  ConsoleLog ExecutingFallback; FallbackCall]))
| turn_retried e :
    task (invocations (trace s)) = Rejected e ->
    retryCondition' options e = true ->
    (attempt s + 1 <= retries options)%Z ->
    Turn s (Continue
              (after s (attempt s + 1)
                 (if exponentialBackoff' options
                  then currentDelay s * 2 + random (draws (trace s)) * 100
                  else currentDelay s)
                 ([ConsoleLog (TryingTask (attempt s + 1)); TaskCall;
                   RetryConditionCall e;
                   ConsoleLog (TaskFailed (attempt s + 1) (message e))]
                  ++ (if onRetry options
                      then [OnRetryCall (attempt s + 1) e] else [])
                  ++ [ConsoleLog (WaitingBeforeRetry (attempt s + 1)
                                    (currentDelay s));
                      SetTimeout (currentDelay s)]
                  ++ (if exponentialBackoff' options then [MathRandom] else [])))).

(** What holds of the state each time the loop is at its head, in a run
    that starts from [initial]: so far every invocation was rejected with
    an accepted error and was followed by one call of the hook and one
    wait, and [attempt] counts them. *)
Record Head (s : State E) : Prop := {
  head_attempt : attempt s = Z.of_nat (invocations (trace s));
  head_failed : failsRetryably task options (invocations (trace s));
  head_rejections :
    List.length (rejections task (invocations (trace s)))
    = invocations (trace s);
  head_conditions :
    retryConditionCalls (trace s)
    = rejections task (invocations (trace s));
  head_hooks :
    onRetryCalls (trace s)
    = if onRetry options
      then numbered (rejections task (invocations (trace s))) else [];
  head_delays : List.length (delays (trace s)) = invocations (trace s);
  head_fallback : fallbackCalls (trace s) = 0%nat;
  head_awaits : awaits (trace s) = (2 * invocations (trace s))%nat;
  head_exhausted : exhausted (trace s) = false
}.

End Reading.

(** ** Reading the outcome of a call *)

(** The failures that [retryCondition] accepted. *)
Definition acceptedFailures {T E : Type} (options : RetryOptions T E)
           (tr : list (Event E)) : nat :=
  List.length (filter (retryCondition' options) (retryConditionCalls tr)).

(** The options [options] with [timeout] set to [t]. *)
Definition withTimeout {T E : Type} (t : option Q)
           (options : RetryOptions T E) : RetryOptions T E :=
  {| retries := retries options;
     delay := delay options;
     exponentialBackoff := exponentialBackoff options;
     onRetry := onRetry options;
     retryCondition := retryCondition options;
     timeout := t;
     fallback := fallback options |}.

(** The ways a call of [retry] can end. *)
Inductive Terminal : Type :=
| SuccessValue
| FallbackValue
| FallbackError
| NonRetryableError
| ExhaustedError
| TimeoutError
| UnexpectedError.

(** The outcomes that the failure semantics of the controller enumerates. *)
Definition enumerated : list Terminal :=
  [SuccessValue; FallbackValue; NonRetryableError; ExhaustedError;
   TimeoutError].

Section Outcome.
Context {T E : Type}.
Variable task : operation T E.
Variable options : RetryOptions T E.

(** [endsIn run c]: the call that settled as [fst run], its attempt loop
    ending in the state [snd run], ended the way [c].
    - a success value is the value of the last invocation of the task;
    - a fallback value, or a fallback error, is how the one invocation of
      the fallback settled;
    - a non-retryable error is the error of the last invocation, which
      [retryCondition] refused;
    - an exhausted error is the error of the last invocation, which
      [retryCondition] accepted, the budget of [retries + 1] invocations
      being spent and no fallback being there to run;
    - the two remaining errors are the ones [retry] creates itself. *)
Definition endsIn (run : settled T (thrown E) * State E) (c : Terminal)
  : Prop :=
  let r := fst run in
  let tr := trace (snd run) in
  match c with
  | SuccessValue =>
      exists v, r = Fulfilled v /\ fallbackCalls tr = 0%nat /\
                task (pred (invocations tr)) = Fulfilled v
  | FallbackValue =>
      exists v fb, r = Fulfilled v /\ fallbackCalls tr = 1%nat /\
                   fallback options = Some fb /\ fb 0%nat = Fulfilled v
  | FallbackError =>
      exists e fb, r = Rejected (Raised e) /\ fallbackCalls tr = 1%nat /\
                   fallback options = Some fb /\ fb 0%nat = Rejected e
  | NonRetryableError =>
      exists e, r = Rejected (Raised e) /\ fallbackCalls tr = 0%nat /\
                task (pred (invocations tr)) = Rejected e /\
                retryCondition' options e = false
  | ExhaustedError =>
      exists e, r = Rejected (Raised e) /\ fallbackCalls tr = 0%nat /\
                task (pred (invocations tr)) = Rejected e /\
                retryCondition' options e = true /\
                Z.of_nat (invocations tr) = (retries options + 1)%Z /\
                fallback options = None
  | TimeoutError => r = Rejected (NewError "Retry timeout exceeded")
  | UnexpectedError => r = Rejected (NewError "Retry failed unexpectedly")
  end.
End Outcome.

(** ** The loop with every way out of the [catch] block

    [Section Retry] above follows the loop on the runs in which the
    callbacks return and every rejection is an object whose [.message] can
    be read. The [catch] block has three more ways out, none of them
    caught: [retryCondition(error)] may throw (line 34), the template of
    line 49 throws a [TypeError] when [error] is [null] or [undefined], and
    [onRetry(attempt, error)] may throw (line 51). [Module Full] is the
    loop with these.

    It also follows a [retries] that is [NaN], with which both
    [attempt <= retries] (line 29) and [attempt > retries] (line 40) are
    false. A finite [retries] is the integer [retries options]: [attempt]
    is an integer, so the two comparisons see of a fractional [retries]
    its integer part only, and [-Infinity] is any negative number. With
    [retries = Infinity] the loop need not end; that value is left out. *)

Module Full.
Section Model.
Context {T E : Type}.

(** [(error as Error).message]: [None] when [error] is [null] or
    [undefined], on which the read throws. *)
Variable message : E -> option string.
(** What [onRetry(attempt, error)] throws; [None] when it returns. *)
Variable onRetryThrows : Z -> E -> option E.
(** What a supplied [retryCondition(error)] throws; [None] when it returns
    its verdict, which is then [retryCondition' options error]. *)
Variable retryConditionThrows : E -> option E.
(** Whether [retries] is [NaN], with which every comparison is false
    and [retries options] is not read. *)
Variable retriesIsNaN : bool.
(** [Math.random()]: the value of draw number [k]. *)
Variable random : nat -> Q.
(** The event loop, as for [retry] above. *)
Variable timerFiresAt : option nat.

Variable task : operation T E.
Variable options : RetryOptions T E.

(** The default [() => true] does not throw. *)
Definition conditionThrows (error : E) : option E :=
  match retryCondition options with
  | Some _ => retryConditionThrows error
  | None => None
  end.

(** Whether [retryCondition(error)] returns, and returns [true]. *)
Definition accepts (error : E) : bool :=
  match conditionThrows error with
  | Some _ => false
  | None => retryCondition' options error
  end.

(** [n <= retries] and [n > retries]. *)
Definition withinRetries (n : Z) : bool :=
  negb retriesIsNaN && (n <=? retries options)%Z.
Definition beyondRetries (n : Z) : bool :=
  negb retriesIsNaN && (n >? retries options)%Z.

(** Lines 54 to 60: the wait, then the back-off. *)
Definition wait (s : State E) : Step T E :=
  let s := emit (ConsoleLog (WaitingBeforeRetry (attempt s) (currentDelay s))) s in
  let s := emit (SetTimeout (currentDelay s)) s in
  Continue (backoff random options s).

(** The [catch (error)] block. *)
Definition catchBlock (error : E) (s : State E) : Step T E :=
  let s := emit (RetryConditionCall error) s in
  match conditionThrows error with
  | Some x => Settle (Rejected (Raised x)) s
  | None =>
      if negb (retryCondition' options error) then
        let s := emit (ConsoleError ConditionFailed) s in
        Settle (Rejected (Raised error)) s
      else
        let s := setAttempt (attempt s + 1) s in
        if beyondRetries (attempt s) then
          let s := emit (ConsoleError (ExceededRetries (retries options))) s in
          match fallback options with
          | Some fb =>
              let s := emit (ConsoleLog ExecutingFallback) s in
              match fb (fallbackCalls (trace s)) with
              | Fulfilled v => Settle (Fulfilled v) (emit FallbackCall s)
              | Rejected e => Settle (Rejected (Raised e)) (emit FallbackCall s)
              end
          | None => Settle (Rejected (Raised error)) s
          end
        else
          match message error with
          | None => Settle (Rejected TypeError) s
          | Some text =>
              let s := emit (ConsoleLog (TaskFailed (attempt s) text)) s in
              if onRetry options then
                let s := emit (OnRetryCall (attempt s) error) s in
                match onRetryThrows (attempt s) error with
                | Some x => Settle (Rejected (Raised x)) s
                | None => wait s
                end
              else wait s
          end
  end.

(** The body of [while (attempt <= retries)]. *)
Definition iteration (s : State E) : Step T E :=
  let s := emit (ConsoleLog (TryingTask (attempt s + 1))) s in
  match task (invocations (trace s)) with
  | Fulfilled v => Settle (Fulfilled v) (emit TaskCall s)
  | Rejected error => catchBlock error (emit TaskCall s)
  end.

(** [retryPromise], from the state [s] at the head of the loop. *)
Equations? retryLoop (s : State E) : settled T (thrown E) * State E
  by wf (Z.to_nat (retries options + 1 - attempt s)) lt :=
  retryLoop s with inspect (withinRetries (attempt s)) := {
    | exist _ true Hguard with inspect (iteration s) := {
        | exist _ (Settle r s') _ := (r, s');
        | exist _ (Continue s') Hturn := retryLoop s' };
    | exist _ false _ :=
        (Rejected (NewError "Retry failed unexpectedly"), s) }.
Proof.
  unfold withinRetries in Hguard. unfold iteration in Hturn.
  destruct retriesIsNaN eqn:Hnan; [discriminate|].
  cbn [negb andb] in Hguard. apply Z.leb_le in Hguard.
  destruct (task _) as [v|error]; [discriminate|].
  unfold catchBlock, beyondRetries in Hturn.
  destruct (conditionThrows error); [discriminate|].
  destruct (negb (retryCondition' options error)); [discriminate|].
  rewrite Hnan in Hturn. cbn [attempt setAttempt emit negb andb] in Hturn.
  destruct (Z.gtb_spec (attempt s + 1) (retries options)).
  - destruct (fallback options) as [fb|]; [|discriminate].
    destruct (fb _); discriminate.
  - destruct (message error); [|discriminate].
    unfold wait, backoff in Hturn.
    destruct (onRetry options);
      [destruct (onRetryThrows _ error); [discriminate|] |];
      injection Hturn as <-;
      destruct (exponentialBackoff' options); cbn; lia.
Qed.

Definition retryPromise : settled T (thrown E) * State E :=
  retryLoop (initial options).

(** [retry], with the race of [Section Retry]. *)
Definition retry : settled T (thrown E) * State E :=
  let run := retryPromise in
  if truthy (timeout options) then
    match timerFiresAt with
    | Some i =>
        if (i <? awaits (trace (snd run)))%nat
        then (Rejected (NewError "Retry timeout exceeded"), snd run)
        else run
    | None => run
    end
  else run.

(** The failures that [retryCondition] accepted. *)
Definition acceptedFailures (tr : list (Event E)) : nat :=
  List.length (filter accepts (retryConditionCalls tr)).

End Model.

Section Reading.
Context {T E : Type}.
Variable message : E -> option string.
Variable onRetryThrows : Z -> E -> option E.
Variable retryConditionThrows : E -> option E.
Variable random : nat -> Q.
Variable task : operation T E.
Variable options : RetryOptions T E.

(** One turn of the loop with a numeric [retries], case by case, from the
    state [s] at its head: the five ways of [Turn] above, and the three throws of the [catch]
    block. *)
Inductive Turn (s : State E) : Step T E -> Prop :=
| turn_fulfilled v :
    task (invocations (trace s)) = Fulfilled v ->
    Turn s (Settle (Fulfilled v)
              (after s (attempt s) (currentDelay s)
                 [ConsoleLog (TryingTask (attempt s + 1)); TaskCall]))
| turn_condition_throws e x :
    task (invocations (trace s)) = Rejected e ->
    conditionThrows retryConditionThrows options e = Some x ->
    Turn s (Settle (Rejected (Raised x))
              (after s (attempt s) (currentDelay s)
                 [ConsoleLog (TryingTask (attempt s + 1)); TaskCall;
                  RetryConditionCall e]))
| turn_aborted e :
    task (invocations (trace s)) = Rejected e ->
    conditionThrows retryConditionThrows options e = None ->
    retryCondition' options e = false ->
    Turn s (Settle (Rejected (Raised e))
              (after s (attempt s) (currentDelay s)
                 [ConsoleLog (TryingTask (attempt s + 1)); TaskCall;
                  RetryConditionCall e; ConsoleError ConditionFailed]))
| turn_exhausted e :
    task (invocations (trace s)) = Rejected e ->
    conditionThrows retryConditionThrows options e = None ->
    retryCondition' options e = true ->
    (retries options < attempt s + 1)%Z ->
    fallback options = None ->
    Turn s (Settle (Rejected (Raised e))
              (after s (attempt s + 1) (currentDelay s)
                 [ConsoleLog (TryingTask (attempt s + 1)); TaskCall;
                  RetryConditionCall e;
                  ConsoleError (ExceededRetries (retries options))]))
| turn_fallback e fb :
    task (invocations (trace s)) = Rejected e ->
    conditionThrows retryConditionThrows options e = None ->
    retryCondition' options e = true ->
    (retries options < attempt s + 1)%Z ->
    fallback options = Some fb ->
    Turn s (Settle (ofFallback (fb (fallbackCalls (trace s))))
              (after s (attempt s + 1) (currentDelay s)
                 [ConsoleLog (TryingTask (attempt s + 1)); TaskCall;
                  RetryConditionCall e;
                  ConsoleError (ExceededRetries (retries options));
                  ConsoleLog ExecutingFallback; FallbackCall]))
| turn_type_error e :
    task (invocations (trace s)) = Rejected e ->
    conditionThrows retryConditionThrows options e = None ->
    retryCondition' options e = true ->
    (attempt s + 1 <= retries options)%Z ->
    message e = None ->
    Turn s (Settle (Rejected TypeError)
              (after s (attempt s + 1) (currentDelay s)
                 [ConsoleLog (TryingTask (attempt s + 1)); TaskCall;
                  RetryConditionCall e]))
| turn_hook_throws e text x :
    task (invocations (trace s)) = Rejected e ->
    conditionThrows retryConditionThrows options e = None ->
    retryCondition' options e = true ->
    (attempt s + 1 <= retries options)%Z ->
    message e = Some text ->
    onRetry options = true ->
    onRetryThrows (attempt s + 1)%Z e = Some x ->
    Turn s (Settle (Rejected (Raised x))
              (after s (attempt s + 1) (currentDelay s)
                 [ConsoleLog (TryingTask (attempt s + 1)); TaskCall;
                  RetryConditionCall e;
                  ConsoleLog (TaskFailed (attempt s + 1) text);
                  OnRetryCall (attempt s + 1) e]))
| turn_retried e text :
    task (invocations (trace s)) = Rejected e ->
    conditionThrows retryConditionThrows options e = None ->
    retryCondition' options e = true ->
    (attempt s + 1 <= retries options)%Z ->
    message e = Some text ->
    (onRetry options = true -> onRetryThrows (attempt s + 1)%Z e = None) ->
    Turn s (Continue
              (after s (attempt s + 1)
                 (if exponentialBackoff' options
                  then currentDelay s * 2 + random (draws (trace s)) * 100
                  else currentDelay s)
                 ([ConsoleLog (TryingTask (attempt s + 1)); TaskCall;
                   RetryConditionCall e;
                   ConsoleLog (TaskFailed (attempt s + 1) text)]
                  ++ (if onRetry options
                      then [OnRetryCall (attempt s + 1) e] else [])
                  ++ [ConsoleLog (WaitingBeforeRetry (attempt s + 1)
                                    (currentDelay s));
                      SetTimeout (currentDelay s)]
                  ++ (if exponentialBackoff' options then [MathRandom] else [])))).

End Reading.
End Full.

(** What [.message] reads, the empty string where the read throws. *)
Definition textOf {E : Type} (message : E -> option string) (e : E)
  : string :=
  match message e with Some text => text | None => EmptyString end.

(** ** Scenarios

    The runs of the test suite, with error objects given by their
    message. *)

Definition messageOf (e : string) : string := e.

(** A source of jitter: every draw of [Math.random()] gives one half. *)
Definition half (k : nat) : Q := 1 # 2.

Definition plain (R : Z) (d : Q) : RetryOptions string string :=
  {| retries := R; delay := d; exponentialBackoff := None; onRetry := true;
     retryCondition := None; timeout := None; fallback := None |}.

(** [async () => { throw new Error('Persistent error') }] *)
Definition persistentError : operation string string :=
  fun _ => Rejected "Persistent error"%string.

(** The task that throws 'Transient error' twice, then returns 'Success'. *)
Definition succeedsThird : operation string string :=
  fun k => if (k <? 2)%nat then Rejected "Transient error"%string
           else Fulfilled "Success"%string.

(** [async () => 'Success'] *)
Definition succeedsFirst : operation string string :=
  fun _ => Fulfilled "Success"%string.

(** [retryCondition: (error) => error.message === 'Retriable error'], on a
    task that throws 'Non-retriable error'. *)
Definition onlyRetriable : RetryOptions string string :=
  {| retries := 3; delay := 100; exponentialBackoff := None; onRetry := true;
     retryCondition := Some (String.eqb "Retriable error");
     timeout := None; fallback := None |}.

Definition nonRetriableError : operation string string :=
  fun _ => Rejected "Non-retriable error"%string.

(** A fallback that returns 'Fallback result', and one that throws. *)
Definition withFallback (R : Z) (fb : operation string string)
  : RetryOptions string string :=
  {| retries := R; delay := 100; exponentialBackoff := None; onRetry := true;
     retryCondition := None; timeout := None; fallback := Some fb |}.

Definition fallbackResult : operation string string :=
  fun _ => Fulfilled "Fallback result"%string.

Definition fallbackFails : operation string string :=
  fun _ => Rejected "Fallback error"%string.

(** [{ retries: 3, delay: 100, exponentialBackoff: true }] *)
Definition backingOff : RetryOptions string string :=
  {| retries := 3; delay := 100; exponentialBackoff := Some true;
     onRetry := false; retryCondition := None; timeout := None;
     fallback := None |}.

(** [{ retries: 3, delay: 100, timeout: 150 }] *)
Definition timed : RetryOptions string string :=
  {| retries := 3; delay := 100; exponentialBackoff := None; onRetry := false;
     retryCondition := None; timeout := Some 150; fallback := None |}.

(** A task that settles as [succeedsThird] on its first four
    invocations and throws 'Too late' afterwards. *)
Definition succeedsThirdThenFails : operation string string :=
  fun k => if (k <? 4)%nat then succeedsThird k
           else Rejected "Too late"%string.

(** ** Scenarios with [null] and with callbacks that throw

    Thrown values are [Some message] for an [Error] object and [None] for
    [null]. *)

(** [(error as Error).message] on these values. *)
Definition messageOrNull (e : option string) : option string := e.

(** Callbacks that never throw. *)
Definition returns2 (n : Z) (e : option string) : option (option string) :=
  None.
Definition returns1 (e : option string) : option (option string) := None.

(** [onRetry: () => { throw new Error('Hook failed') }] *)
Definition hookFails (n : Z) (e : option string)
  : option (option string) := Some (Some "Hook failed"%string).

Definition plainJs (R : Z) (d : Q) : RetryOptions string (option string) :=
  {| retries := R; delay := d; exponentialBackoff := None; onRetry := true;
     retryCondition := None; timeout := None; fallback := None |}.

(** [async () => { throw null }] *)
Definition throwsNull : operation string (option string) :=
  fun _ => Rejected None.

(** [throw null] on the first invocation, then ['Success']. *)
Definition nullThenSuccess : operation string (option string) :=
  fun k => if (k <? 1)%nat then Rejected None
           else Fulfilled "Success"%string.

(** [async () => { throw new Error('Persistent error') }] *)
Definition persistentErrorJs : operation string (option string) :=
  fun _ => Rejected (Some "Persistent error"%string).

(** ['Transient error'] on the first invocation, then ['Success']. *)
Definition succeedsSecondJs : operation string (option string) :=
  fun k => if (k <? 1)%nat then Rejected (Some "Transient error"%string)
           else Fulfilled "Success"%string.

(** A fallback that throws, with [retries = 0]. *)
Definition fallbackFailsJs : RetryOptions string (option string) :=
  {| retries := 0; delay := 100; exponentialBackoff := None; onRetry := true;
     retryCondition := None; timeout := None;
     fallback := Some (fun _ => Rejected (Some "Fallback error"%string)) |}.

(** [{ retries: 3, delay: 100, exponentialBackoff: true }] *)
Definition backingOffJs : RetryOptions string (option string) :=
  {| retries := 3; delay := 100; exponentialBackoff := Some true;
     onRetry := false; retryCondition := None; timeout := None;
     fallback := None |}.

(** A source of jitter: the first draw of [Math.random()] gives one half,
    the later ones a quarter. *)
Definition halfThenQuarter (k : nat) : Q :=
  if (k <? 1)%nat then 1 # 2 else 1 # 4.

(** ** Reading two runs side by side *)

(** Two runs have waited alike up to their wait number [k + 1]. *)
Definition sameWaits {E : Type} (k : nat) (s1 s2 : State E) : Prop :=
  List.length (delays (trace s1)) = List.length (delays (trace s2)) /\
  firstn (S k) (delays (trace s1)) = firstn (S k) (delays (trace s2)).

(** Two states at the head of the loop, in two runs that have drawn the
    same first [k] numbers: the loops are at the same attempt, have waited
    alike, and hold the same [currentDelay] as long as no other draw has
    entered it. *)
Definition alike {E : Type} (k : nat) (s1 s2 : State E) : Prop :=
  attempt s1 = attempt s2 /\
  invocations (trace s1) = invocations (trace s2) /\
  draws (trace s1) = draws (trace s2) /\
  (draws (trace s1) <= List.length (delays (trace s1)))%nat /\
  sameWaits k s1 s2 /\
  ((List.length (delays (trace s1)) <= k)%nat ->
   currentDelay s1 = currentDelay s2).

(** ** The back-off on binary64 numbers

    [currentDelay] is a JavaScript number: lines 58 and 59 double it and
    add the jitter in binary64, rounding to nearest. *)

Module Binary64.
Import PrimFloat.

(** Lines 58 and 59, [random] being the value of [Math.random()]. *)
Definition backoff (currentDelay random : float) : float :=
  let currentDelay := (currentDelay * 2)%float in
  (currentDelay + random * 100)%float.

(** [currentDelay] when wait number [n + 1] begins: [delay] after [n]
    back-offs, draw number [i] of [Math.random()] giving [random i]. *)
Fixpoint currentDelayAt (delay : float) (random : nat -> float) (n : nat)
  : float :=
  match n with
  | O => delay
  | S n' => backoff (currentDelayAt delay random n') (random n')
  end.

End Binary64.

(** ** Reading the rhythm of a run *)

(** The events that make the rhythm of the loop. *)
Inductive Beat : Type := Attempt | Wait | Draw.

(** The invocations of the task, the waits and the draws of
    [Math.random()] of a trace, in order. *)
Fixpoint beats {E : Type} (tr : list (Event E)) : list Beat :=
  match tr with
  | [] => []
  | TaskCall :: tr' => Attempt :: beats tr'
  | SetTimeout _ :: tr' => Wait :: beats tr'
  | MathRandom :: tr' => Draw :: beats tr'
  | _ :: tr' => beats tr'
  end.

(** One round of the loop that is followed by another: the attempt, the
    wait and, with back-off, the draw of the jitter. *)
Definition round {T E : Type} (options : RetryOptions T E) : list Beat :=
  [Attempt; Wait] ++ (if exponentialBackoff' options then [Draw] else []).

(** ** Reading the console *)

(** The attempt numbers of the lines [Attempt n: Trying task], in order. *)
Fixpoint tryingLogs {E : Type} (tr : list (Event E)) : list Z :=
  match tr with
  | [] => []
  | ConsoleLog (TryingTask n) :: tr' => n :: tryingLogs tr'
  | _ :: tr' => tryingLogs tr'
  end.

(** * Properties *)

Section TraceFacts.
Context {E : Type}.
Implicit Types tr : list (Event E).

Lemma invocations_app tr tr' :
  invocations (tr ++ tr') = (invocations tr + invocations tr')%nat.
Proof. unfold invocations. rewrite filter_app, length_app. reflexivity. Qed.

Lemma fallbackCalls_app tr tr' :
  fallbackCalls (tr ++ tr') = (fallbackCalls tr + fallbackCalls tr')%nat.
Proof. unfold fallbackCalls. rewrite filter_app, length_app. reflexivity. Qed.

Lemma draws_app tr tr' : draws (tr ++ tr') = (draws tr + draws tr')%nat.
Proof. unfold draws. rewrite filter_app, length_app. reflexivity. Qed.

Lemma awaits_app tr tr' : awaits (tr ++ tr') = (awaits tr + awaits tr')%nat.
Proof. unfold awaits. rewrite filter_app, length_app. reflexivity. Qed.

Lemma onRetryCalls_app tr tr' :
  onRetryCalls (tr ++ tr') = onRetryCalls tr ++ onRetryCalls tr'.
Proof.
  induction tr as [|ev tr IH]; [reflexivity|].
  destruct ev; cbn; rewrite ?IH; reflexivity.
Qed.

Lemma retryConditionCalls_app tr tr' :
  retryConditionCalls (tr ++ tr')
  = retryConditionCalls tr ++ retryConditionCalls tr'.
Proof.
  induction tr as [|ev tr IH]; [reflexivity|].
  destruct ev; cbn; rewrite ?IH; reflexivity.
Qed.

Lemma exhausted_app tr tr' :
  exhausted (tr ++ tr') = exhausted tr || exhausted tr'.
Proof. apply existsb_app. Qed.

Lemma delays_app tr tr' : delays (tr ++ tr') = delays tr ++ delays tr'.
Proof.
  induction tr as [|ev tr IH]; [reflexivity|].
  destruct ev; cbn; rewrite ?IH; reflexivity.
Qed.

Lemma numberedFrom_app (n : Z) (l l' : list E) :
  numberedFrom n (l ++ l')
  = numberedFrom n l ++ numberedFrom (n + Z.of_nat (List.length l)) l'.
Proof.
  revert n. induction l as [|e l IH]; intros n.
  - cbn. rewrite Z.add_0_r. reflexivity.
  - cbn [app numberedFrom List.length]. rewrite IH. cbn [app].
    do 3 f_equal. lia.
Qed.

Lemma numbered_snoc (l : list E) (e : E) :
  numbered (l ++ [e]) = numbered l ++ [(Z.of_nat (S (List.length l)), e)].
Proof.
  unfold numbered. rewrite numberedFrom_app. cbn [numberedFrom].
  do 3 f_equal. lia.
Qed.

Lemma numberedFrom_length (n : Z) (l : list E) :
  List.length (numberedFrom n l) = List.length l.
Proof.
  revert n. induction l as [|e l IH]; intros n; cbn; [|rewrite IH];
    reflexivity.
Qed.

End TraceFacts.

Create Rewrite HintDb trace.
#[local] Hint Rewrite @invocations_app @fallbackCalls_app @draws_app
  @awaits_app @onRetryCalls_app @retryConditionCalls_app @delays_app
  @exhausted_app
  : trace.

Section LoopFacts.
Context {T E : Type}.
Variable message : E -> string.
Variable random : nat -> Q.
Variable task : operation T E.
Variable options : RetryOptions T E.

(** *** The loop, turn by turn *)

Lemma retryLoop_turn s :
  retryLoop message random task options s =
  if (attempt s <=? retries options)%Z then
    match iteration message random task options s with
    | Settle r s' => (r, s')
    | Continue s' => retryLoop message random task options s'
    end
  else (Rejected (NewError "Retry failed unexpectedly"), s).
Proof.
  funelim (retryLoop message random task options s);
    match goal with H : (_ <=? _)%Z = _ |- _ => rewrite H end;
    try match goal with H : iteration _ _ _ _ _ = _ |- _ => rewrite H end;
    reflexivity.
Qed.

(** The rule of the [while] loop: an invariant [I] of the states at the
    head of the loop gives [P] of what the loop settles with. *)
Lemma retryLoop_rule (I : State E -> Prop)
      (P : settled T (thrown E) * State E -> Prop) :
  (forall s, I s -> (retries options < attempt s)%Z ->
             P (Rejected (NewError "Retry failed unexpectedly"), s)) ->
  (forall s r s', I s -> (attempt s <= retries options)%Z ->
                  iteration message random task options s = Settle r s' ->
                  P (r, s')) ->
  (forall s s', I s -> (attempt s <= retries options)%Z ->
                iteration message random task options s = Continue s' ->
                I s') ->
  forall s, I s -> P (retryLoop message random task options s).
Proof.
  intros Hexit Hsettle Hround s.
  funelim (retryLoop message random task options s); intros Hs.
  - apply Hexit; [assumption|]. apply Z.leb_gt. assumption.
  - eapply Hsettle; eauto. apply Z.leb_le. assumption.
  - match goal with
    | IH : forall I P, _ -> _ -> _ -> I _ -> P (retryLoop _ _ _ _ _) |- _ =>
        apply (IH I P); try assumption
    end.
    eapply Hround; eauto. apply Z.leb_le. assumption.
Qed.

Lemma emit_after (s : State E) a d evs ev :
  emit ev (after s a d evs) = after s a d (evs ++ [ev]).
Proof. unfold emit, after. cbn. rewrite <- app_assoc. reflexivity. Qed.

Lemma emit_first (s : State E) ev :
  emit ev s = after s (attempt s) (currentDelay s) [ev].
Proof. reflexivity. Qed.

Lemma setAttempt_after (s : State E) a d evs n :
  setAttempt n (after s a d evs) = after s n d evs.
Proof. reflexivity. Qed.

Lemma trace_after (s : State E) a d evs :
  trace (after s a d evs) = trace s ++ evs.
Proof. reflexivity. Qed.

Lemma attempt_after (s : State E) a d evs : attempt (after s a d evs) = a.
Proof. reflexivity. Qed.

Lemma currentDelay_after (s : State E) a d evs :
  currentDelay (after s a d evs) = d.
Proof. reflexivity. Qed.

Lemma setCurrentDelay_after (s : State E) a d evs d' :
  setCurrentDelay d' (after s a d evs) = after s a d' evs.
Proof. reflexivity. Qed.

(** [iteration] does what [Turn] says. *)
Lemma iteration_Turn s :
  Turn message random task options s
       (iteration message random task options s).
Proof.
  unfold iteration. rewrite (emit_first s), !emit_after, trace_after.
  autorewrite with trace. cbn [invocations filter isTaskCall List.length app].
  rewrite Nat.add_0_r.
  destruct (task (invocations (trace s))) as [v|e] eqn:Htask.
  - apply turn_fulfilled. assumption.
  - unfold catchBlock, backoff.
    destruct (retryCondition' options e) eqn:Hcond; cbn [negb].
    + destruct (Z.gtb_spec (attempt s + 1) (retries options)) as [Hgt|Hle].
      * destruct (fallback options) as [fb|] eqn:Hfb.
        -- pose proof (@turn_fallback _ _ message random task options
                         s e fb Htask Hcond Hgt Hfb) as Hturn.
           unfold ofFallback in Hturn.
           repeat rewrite ?emit_after, ?setAttempt_after, ?attempt_after,
             ?currentDelay_after, ?trace_after.
           autorewrite with trace.
           cbn [fallbackCalls filter isFallbackCall List.length app].
           rewrite Nat.add_0_r.
           destruct (Z.gtb_spec (attempt s + 1) (retries options)); [|lia].
           destruct (fb (fallbackCalls (trace s))); exact Hturn.
        -- repeat rewrite ?emit_after, ?setAttempt_after, ?attempt_after,
             ?currentDelay_after, ?trace_after.
           destruct (Z.gtb_spec (attempt s + 1) (retries options)); [|lia].
           apply turn_exhausted; assumption.
      * pose proof (@turn_retried _ _ message random task options
                      s e Htask Hcond Hle) as Hturn.
        destruct (onRetry options), (exponentialBackoff' options);
          repeat rewrite ?emit_after, ?setAttempt_after, ?attempt_after,
            ?currentDelay_after, ?setCurrentDelay_after, ?trace_after;
          (destruct (Z.gtb_spec (attempt s + 1) (retries options)); [lia|]);
          autorewrite with trace;
          cbn [draws filter isMathRandom List.length app] in *;
          rewrite ?Nat.add_0_r; exact Hturn.
    + rewrite !emit_after. cbn [app].
      apply turn_aborted; assumption.
Qed.

(** *** The invariant of the head of the loop *)

Lemma Head_initial : Head task options (initial options).
Proof.
  constructor; cbn; try reflexivity.
  - intros i Hi. inversion Hi.
  - destruct (onRetry options); reflexivity.
Qed.

Lemma Head_round s s' :
  Head task options s ->
  Turn message random task options s (Continue s') ->
  Head task options s'.
Proof.
  intros [Hatt Hfail Hlen Hconds Hhooks Hdelays Hfb Haw Hex] Hturn.
  inversion Hturn as [ | | | |e Htask Hcond Hle Hs']. subst s'. clear Hturn.
  match goal with |- Head _ _ (after _ _ _ ?l) => set (evs := l) end.
  assert (Hinv : invocations (trace s ++ evs) = S (invocations (trace s))).
  { subst evs. autorewrite with trace.
    destruct (onRetry options), (exponentialBackoff' options); cbn; lia. }
  constructor; rewrite ?trace_after, ?attempt_after, ?Hinv; subst evs.
  - lia.
  - intros i Hi.
    assert (i < invocations (trace s) \/ i = invocations (trace s))%nat
      as [Hi'| ->] by lia; [apply Hfail; assumption|].
    exists e. split; assumption.
  - cbn [rejections]. rewrite Htask, length_app, Hlen. cbn. lia.
  - autorewrite with trace. rewrite Hconds. cbn [rejections]. rewrite Htask.
    destruct (onRetry options), (exponentialBackoff' options); reflexivity.
  - autorewrite with trace. rewrite Hhooks. cbn [rejections]. rewrite Htask.
    destruct (onRetry options) eqn:Hhook.
    + rewrite numbered_snoc, Hlen, Hatt.
      replace (Z.of_nat (invocations (trace s)) + 1)%Z
        with (Z.of_nat (S (invocations (trace s)))) by lia.
      destruct (exponentialBackoff' options); reflexivity.
    + destruct (exponentialBackoff' options); reflexivity.
  - autorewrite with trace. rewrite length_app, Hdelays.
    destruct (onRetry options), (exponentialBackoff' options); cbn; lia.
  - autorewrite with trace. rewrite Hfb.
    destruct (onRetry options), (exponentialBackoff' options); reflexivity.
  - autorewrite with trace. rewrite Haw.
    destruct (onRetry options), (exponentialBackoff' options); cbn; lia.
  - autorewrite with trace. rewrite Hex.
    destruct (onRetry options), (exponentialBackoff' options); reflexivity.
Qed.

(** With [retries >= 0], a run of [retryPromise] settles in a turn of the
    loop, taken from a state [h] of which the invariant holds. *)
Lemma retryPromise_last_turn :
  (0 <= retries options)%Z ->
  exists h,
    Head task options h /\ (attempt h <= retries options)%Z /\
    Turn message random task options h
         (Settle (fst (retryPromise message random task options))
                 (snd (retryPromise message random task options))).
Proof.
  intros HR. unfold retryPromise.
  apply (retryLoop_rule
           (fun s => Head task options s /\ (attempt s <= retries options)%Z)
           (fun rs => exists h,
                Head task options h /\ (attempt h <= retries options)%Z /\
                Turn message random task options h
                     (Settle (fst rs) (snd rs)))).
  - intros s [_ Hle] Hlt. lia.
  - intros s r s' [Hs Hle] _ Hit. exists s. cbn [fst snd].
    rewrite <- Hit. auto using iteration_Turn.
  - intros s s' [Hs Hle] _ Hit.
    pose proof (iteration_Turn s) as Hturn. rewrite Hit in Hturn.
    split; [eapply Head_round; eassumption|].
    inversion Hturn; subst. rewrite attempt_after. assumption.
  - split; [apply Head_initial | assumption].
Qed.

(** With [retries < 0] the loop is not entered. *)
Lemma retryPromise_negative :
  (retries options < 0)%Z ->
  retryPromise message random task options
  = (Rejected (NewError "Retry failed unexpectedly"), initial options).
Proof.
  intros HR. unfold retryPromise. rewrite retryLoop_turn.
  destruct (Z.leb_spec (attempt (initial options)) (retries options))
    as [Hle|_]; [cbn in Hle; lia | reflexivity].
Qed.

End LoopFacts.

(** ** The claims about [retry] *)

Section RetryFacts.
Context {T E : Type}.
Variable message : E -> string.
Variable random : nat -> Q.
Variable timerFiresAt : option nat.
Variable task : operation T E.
Variable options : RetryOptions T E.

(** The race does not touch the attempt loop. *)
Lemma retry_state :
  snd (retry message random timerFiresAt task options)
  = snd (retryPromise message random task options).
Proof.
  unfold retry. destruct (truthy (timeout options)); [|reflexivity].
  destruct timerFiresAt as [i|]; [|reflexivity].
  destruct (i <? _)%nat; reflexivity.
Qed.

(** The promise of [retry] is the promise of the loop, unless the timer
    wins the race. *)
Lemma retry_result :
  fst (retry message random timerFiresAt task options)
  = if timerWins timerFiresAt options
         (trace (snd (retry message random timerFiresAt task options)))
    then Rejected (NewError "Retry timeout exceeded")
    else fst (retryPromise message random task options).
Proof.
  rewrite retry_state. unfold retry, timerWins.
  destruct (truthy (timeout options)); [|reflexivity].
  destruct timerFiresAt as [i|]; [|reflexivity]. cbn [andb].
  destruct (i <? _)%nat; reflexivity.
Qed.

Lemma rejections_map (err : nat -> E) (m : nat) :
  (forall i, (i < m)%nat -> task i = Rejected (err i)) ->
  rejections task m = map err (seq 0 m).
Proof.
  induction m as [|m IH]; intros H; [reflexivity|].
  cbn [rejections]. rewrite IH by (intros; apply H; lia).
  rewrite (H m) by lia. rewrite seq_S, map_app. reflexivity.
Qed.

Lemma accepted_rejections (n : nat) :
  failsRetryably task options n ->
  filter (retryCondition' options) (rejections task n) = rejections task n.
Proof.
  induction n as [|n IH]; intros H; [reflexivity|].
  cbn [rejections]. rewrite filter_app, IH by (intros i Hi; apply H; lia).
  destruct (H n) as (e & -> & He); [lia|]. cbn. rewrite He. reflexivity.
Qed.

End RetryFacts.

(** C1. For every operation and every policy with [retries = R >= 0], one
    call of [retry] invokes the operation at most [R + 1] times, however
    the attempts settle and whether or not the timeout timer fires. *)
Theorem retry_invocations_bounded
        {T E : Type} (message : E -> string) (random : nat -> Q)
        (timerFiresAt : option nat)
        (task : operation T E) (options : RetryOptions T E) :
  (0 <= retries options)%Z ->
  (Z.of_nat (invocations
               (trace (snd (retry message random timerFiresAt task options))))
   <= retries options + 1)%Z.
Proof.
  intros HR. rewrite retry_state.
  destruct (retryPromise_last_turn message random task options HR)
    as (h & Hh & Hle & Hturn).
  destruct (retryPromise message random task options) as [r sf].
  cbn [fst snd] in *.
  pose proof (head_attempt Hh) as Hatt.
  inversion Hturn; subst; rewrite trace_after; autorewrite with trace;
    cbn; lia.
Qed.

Lemma retry_invocations_bounded_witness :
  (0 <= retries (plain 3 100))%Z /\
  (Z.of_nat (invocations
               (trace (snd (retry messageOf half None persistentError
                                  (plain 3 100)))))
   <= retries (plain 3 100) + 1)%Z.
Proof.
  split; [cbn; lia|].
  apply retry_invocations_bounded. cbn. lia.
Defined.

(** On the runs of [Section Retry] (nothing is thrown in the [catch]
    block): an operation that fails on every invocation with an accepted
    error, under [retries = R >= 0] and no fallback, is invoked [R + 1]
    times, [onRetry] is called with the attempt numbers 1..R and the errors
    of the first [R] attempts, and the last error is re-raised. *)
Lemma retry_always_failing
        {T E : Type} (message : E -> string) (random : nat -> Q)
        (timerFiresAt : option nat)
        (task : operation T E) (options : RetryOptions T E)
        (err : nat -> E) :
  (0 <= retries options)%Z ->
  fallback options = None ->
  (forall i, task i = Rejected (err i)) ->
  (forall i, retryCondition' options (err i) = true) ->
  timerWins timerFiresAt options
    (trace (snd (retry message random timerFiresAt task options))) = false ->
  let run := retry message random timerFiresAt task options in
  let R := Z.to_nat (retries options) in
  invocations (trace (snd run)) = (R + 1)%nat /\
  onRetryCalls (trace (snd run))
  = (if onRetry options then numbered (map err (seq 0 R)) else []) /\
  List.length (onRetryCalls (trace (snd run)))
  = (if onRetry options then R else 0%nat) /\
  fst run = Rejected (Raised (err R)).
Proof.
  intros HR Hfb Htask Hcond Htimer run R. subst run.
  rewrite retry_result, Htimer, retry_state.
  destruct (retryPromise_last_turn message random task options HR)
    as (h & Hh & Hle & Hturn).
  destruct (retryPromise message random task options) as [r sf].
  cbn [fst snd] in *.
  pose proof (head_attempt Hh) as Hatt.
  pose proof (head_hooks Hh) as Hhooks.
  rewrite (@rejections_map _ _ task err (invocations (trace h))) in Hhooks
    by (intros; apply Htask).
  inversion Hturn; subst; clear Hturn;
    match goal with H : task _ = _ |- _ => rewrite Htask in H; inversion H end;
    subst; try congruence.
  assert (Hn : invocations (trace h) = R) by lia.
  rewrite trace_after. autorewrite with trace. rewrite Hhooks, Hn.
  cbn [onRetryCalls invocations filter isTaskCall List.length].
  rewrite app_nil_r.
  repeat split; try reflexivity.
  destruct (onRetry options); [|reflexivity].
  unfold numbered. rewrite numberedFrom_length, length_map, length_seq.
  reflexivity.
Qed.

(** On the runs of [Section Retry]: an operation that succeeds on attempt
    [k <= retries + 1], having failed with accepted errors before, gives
    the result of attempt [k] after [k] invocations, [k - 1] hook calls and
    [k - 1] waits, the successful invocation being the last event. *)
Lemma retry_succeeds_on_attempt
        {T E : Type} (message : E -> string) (random : nat -> Q)
        (timerFiresAt : option nat)
        (task : operation T E) (options : RetryOptions T E)
        (k : nat) (v : T) (err : nat -> E) :
  (1 <= k)%nat ->
  (Z.of_nat k <= retries options + 1)%Z ->
  task (k - 1)%nat = Fulfilled v ->
  (forall i, (i < k - 1)%nat ->
             task i = Rejected (err i) /\
             retryCondition' options (err i) = true) ->
  timerWins timerFiresAt options
    (trace (snd (retry message random timerFiresAt task options))) = false ->
  let run := retry message random timerFiresAt task options in
  fst run = Fulfilled v /\
  invocations (trace (snd run)) = k /\
  onRetryCalls (trace (snd run))
  = (if onRetry options then numbered (map err (seq 0 (k - 1))) else []) /\
  List.length (onRetryCalls (trace (snd run)))
  = (if onRetry options then (k - 1)%nat else 0%nat) /\
  List.length (delays (trace (snd run))) = (k - 1)%nat /\
  (exists tr, trace (snd run) = tr ++ [TaskCall]) /\
  (k = 1%nat ->
   invocations (trace (snd run)) = 1%nat /\
   delays (trace (snd run)) = [] /\
   onRetryCalls (trace (snd run)) = []).
Proof.
  intros Hk HkR Hv Hbefore Htimer run. subst run.
  rewrite retry_result, Htimer, retry_state.
  assert (HR : (0 <= retries options)%Z) by lia.
  destruct (retryPromise_last_turn message random task options HR)
    as (h & Hh & Hle & Hturn).
  destruct (retryPromise message random task options) as [r sf].
  cbn [fst snd] in *.
  pose proof (head_attempt Hh) as Hatt.
  assert (Hn : (invocations (trace h) < k - 1 \/
                invocations (trace h) = k - 1)%nat).
  { destruct (Nat.lt_ge_cases (k - 1) (invocations (trace h))) as [Hlt|Hge];
      [|lia].
    destruct (head_failed Hh Hlt) as (e & He & _). congruence. }
  destruct Hn as [Hn|Hn].
  - (* the loop cannot settle before attempt [k] *)
    destruct (Hbefore _ Hn) as [Hrej Hacc].
    inversion Hturn; subst; clear Hturn;
      match goal with
      | H : task _ = _ |- _ => rewrite Hrej in H; inversion H
      end; subst; try congruence; lia.
  - inversion Hturn; subst; clear Hturn;
      match goal with
      | H : task _ = _ |- _ => rewrite Hn, Hv in H; inversion H
      end; subst.
    pose proof (head_hooks Hh) as Hhooks.
    pose proof (head_delays Hh) as Hdelays.
    rewrite Hn in Hhooks, Hdelays.
    rewrite (@rejections_map _ _ task err (k - 1)%nat) in Hhooks
      by (intros i Hi; apply Hbefore; assumption).
    rewrite trace_after. autorewrite with trace.
    cbn [onRetryCalls delays invocations filter isTaskCall List.length].
    rewrite !app_nil_r, Hhooks, Hdelays, Hn.
    assert (Hcount : List.length
                       (if onRetry options
                        then numbered (map err (seq 0 (k - 1))) else [])
                     = if onRetry options then (k - 1)%nat else 0%nat).
    { destruct (onRetry options); [|reflexivity].
      unfold numbered.
      rewrite numberedFrom_length, length_map, length_seq. reflexivity. }
    repeat split; try assumption; try lia.
    + exists (trace h ++ [ConsoleLog (TryingTask (attempt h + 1))]).
      rewrite <- app_assoc. reflexivity.
    + apply length_zero_iff_nil. lia.
    + apply length_zero_iff_nil. rewrite Hcount.
      destruct (onRetry options); lia.
Qed.

(** C4. A failure that [retryCondition] refuses, whatever budget is left:
    [retry] re-raises that very error at once. The check comes before the
    attempt counter moves and before any delay: the counter still counts
    the earlier failures only, no wait follows the failed invocation, and
    after it the loop only calls [retryCondition] and logs. When the first
    failure is refused: one invocation, one call of [retryCondition], no
    hook call. *)
Theorem retry_aborts_on_refused_error
        {T E : Type} (message : E -> string) (random : nat -> Q)
        (timerFiresAt : option nat)
        (task : operation T E) (options : RetryOptions T E)
        (j : nat) (e : E) (err : nat -> E) :
  (Z.of_nat j <= retries options)%Z ->
  task j = Rejected e ->
  retryCondition' options e = false ->
  (forall i, (i < j)%nat ->
             task i = Rejected (err i) /\
             retryCondition' options (err i) = true) ->
  timerWins timerFiresAt options
    (trace (snd (retry message random timerFiresAt task options))) = false ->
  let run := retry message random timerFiresAt task options in
  fst run = Rejected (Raised e) /\
  invocations (trace (snd run)) = (j + 1)%nat /\
  attempt (snd run) = Z.of_nat j /\
  List.length (delays (trace (snd run))) = j /\
  retryConditionCalls (trace (snd run)) = map err (seq 0 j) ++ [e] /\
  onRetryCalls (trace (snd run))
  = (if onRetry options then numbered (map err (seq 0 j)) else []) /\
  (exists tr, trace (snd run)
              = tr ++ [TaskCall; RetryConditionCall e;
                       ConsoleError ConditionFailed]) /\
  (j = 0%nat ->
   invocations (trace (snd run)) = 1%nat /\
   retryConditionCalls (trace (snd run)) = [e] /\
   onRetryCalls (trace (snd run)) = []).
Proof.
  intros HjR He Hrefused Hbefore Htimer run. subst run.
  rewrite retry_result, Htimer, retry_state.
  assert (HR : (0 <= retries options)%Z) by lia.
  destruct (retryPromise_last_turn message random task options HR)
    as (h & Hh & Hle & Hturn).
  destruct (retryPromise message random task options) as [r sf].
  cbn [fst snd] in *.
  pose proof (head_attempt Hh) as Hatt.
  assert (Hn : (invocations (trace h) < j \/ invocations (trace h) = j)%nat).
  { destruct (Nat.lt_ge_cases j (invocations (trace h))) as [Hlt|Hge]; [|lia].
    destruct (head_failed Hh Hlt) as (e' & He' & Hacc). congruence. }
  destruct Hn as [Hn|Hn].
  - (* the loop cannot settle before this failure *)
    destruct (Hbefore _ Hn) as [Hrej Hacc].
    inversion Hturn; subst; clear Hturn;
      match goal with
      | H : task _ = _ |- _ => rewrite Hrej in H; inversion H
      end; subst; try congruence; lia.
  - pose proof (head_hooks Hh) as Hhooks.
    pose proof (head_delays Hh) as Hdelays.
    pose proof (head_conditions Hh) as Hconds.
    rewrite Hn in Hhooks, Hdelays, Hconds.
    rewrite (@rejections_map _ _ task err j) in Hhooks, Hconds
      by (intros i Hi; apply Hbefore; assumption).
    rewrite <- Hn in He.
    inversion Hturn; subst sf r; clear Hturn;
      match goal with
      | H : task _ = _ |- _ => rewrite He in H; inversion H
      end; try congruence.
    rewrite trace_after, attempt_after. autorewrite with trace.
    cbn [onRetryCalls delays retryConditionCalls invocations filter
           isTaskCall List.length].
    rewrite !app_nil_r, Hhooks, Hdelays, Hconds, Hn.
    repeat split; try assumption; try lia.
    + exists (trace h ++ [ConsoleLog (TryingTask (attempt h + 1))]).
      rewrite <- app_assoc. reflexivity.
    + match goal with H : j = 0%nat |- _ => rewrite H end. reflexivity.
    + match goal with H : j = 0%nat |- _ => rewrite H end.
      destruct (onRetry options); reflexivity.
Qed.

Lemma retry_aborts_on_refused_error_witness :
  let run := retry messageOf half None nonRetriableError onlyRetriable in
  fst run = Rejected (Raised "Non-retriable error"%string) /\
  invocations (trace (snd run)) = 1%nat /\
  attempt (snd run) = 0%Z /\
  List.length (delays (trace (snd run))) = 0%nat /\
  retryConditionCalls (trace (snd run)) = ["Non-retriable error"%string] /\
  onRetryCalls (trace (snd run)) = [] /\
  (exists tr, trace (snd run)
              = tr ++ [TaskCall;
                       RetryConditionCall "Non-retriable error"%string;
                       ConsoleError ConditionFailed]) /\
  (0%nat = 0%nat ->
   invocations (trace (snd run)) = 1%nat /\
   retryConditionCalls (trace (snd run)) = ["Non-retriable error"%string] /\
   onRetryCalls (trace (snd run)) = []).
Proof.
  apply (@retry_aborts_on_refused_error string string messageOf half None
           nonRetriableError onlyRetriable 0%nat
           "Non-retriable error"%string (fun _ => ""%string)).
  - cbn. lia.
  - reflexivity.
  - reflexivity.
  - intros i Hi. lia.
  - vm_compute. reflexivity.
Defined.

(** C5. When the retries are exhausted (the operation failed [retries + 1]
    times with accepted errors) and a fallback is configured, [retry]
    invokes the fallback exactly once, as the last thing the loop does, and
    settles as the fallback does: with its result when it succeeds, with
    its error as it is when it fails. *)
Theorem retry_exhausted_runs_fallback
        {T E : Type} (message : E -> string) (random : nat -> Q)
        (timerFiresAt : option nat)
        (task : operation T E) (options : RetryOptions T E)
        (fb : operation T E) (err : nat -> E) :
  (0 <= retries options)%Z ->
  fallback options = Some fb ->
  (forall i, (i <= Z.to_nat (retries options))%nat ->
             task i = Rejected (err i) /\
             retryCondition' options (err i) = true) ->
  timerWins timerFiresAt options
    (trace (snd (retry message random timerFiresAt task options))) = false ->
  let run := retry message random timerFiresAt task options in
  fallbackCalls (trace (snd run)) = 1%nat /\
  invocations (trace (snd run)) = (Z.to_nat (retries options) + 1)%nat /\
  (exists tr, trace (snd run) = tr ++ [FallbackCall]) /\
  (forall v, fb 0%nat = Fulfilled v -> fst run = Fulfilled v) /\
  (forall e, fb 0%nat = Rejected e -> fst run = Rejected (Raised e)).
Proof.
  intros HR Hfb Hfails Htimer run. subst run.
  rewrite retry_result, Htimer, retry_state.
  destruct (retryPromise_last_turn message random task options HR)
    as (h & Hh & Hle & Hturn).
  destruct (retryPromise message random task options) as [r sf].
  cbn [fst snd] in *.
  pose proof (head_attempt Hh) as Hatt.
  pose proof (head_fallback Hh) as Hnone.
  destruct (Hfails (invocations (trace h))) as [Hrej Hacc]; [lia|].
  inversion Hturn; subst sf r; clear Hturn;
    match goal with
    | H : task _ = _ |- _ => rewrite Hrej in H; inversion H
    end; subst; try congruence.
  match goal with
  | H : fallback options = Some ?f |- _ =>
      rewrite Hfb in H; injection H as <-
  end.
  rewrite trace_after. autorewrite with trace.
  cbn [fallbackCalls invocations filter isFallbackCall isTaskCall
         List.length].
  rewrite Hnone.
  repeat split; try lia.
  - exists (trace h ++
            [ConsoleLog (TryingTask (attempt h + 1)); TaskCall;
             RetryConditionCall (err (invocations (trace h)));
             ConsoleError (ExceededRetries (retries options));
             ConsoleLog ExecutingFallback]).
    rewrite <- app_assoc. reflexivity.
  - intros v Hv. rewrite Hv. reflexivity.
  - intros e He. rewrite He. reflexivity.
Qed.

Lemma retry_exhausted_runs_fallback_witness :
  let run := retry messageOf half None persistentError
                   (withFallback 3 fallbackResult) in
  fallbackCalls (trace (snd run)) = 1%nat /\
  invocations (trace (snd run)) = 4%nat /\
  (exists tr, trace (snd run) = tr ++ [FallbackCall]) /\
  (forall v, fallbackResult 0%nat = Fulfilled v -> fst run = Fulfilled v) /\
  (forall e, fallbackResult 0%nat = Rejected e ->
             fst run = Rejected (Raised e)).
Proof.
  apply (@retry_exhausted_runs_fallback string string messageOf half None
           persistentError (withFallback 3 fallbackResult) fallbackResult
           (fun _ => "Persistent error"%string)).
  - cbn. lia.
  - reflexivity.
  - intros i Hi. split; reflexivity.
  - vm_compute. reflexivity.
Defined.

(** The delays of the back-off test when every draw of [Math.random()]
    gives one half: 100, then 250, then 550. *)
Example backoff_delays_of_the_test :
  delays (trace (snd (retry messageOf half None persistentError backingOff)))
  = [100; 500 # 2; 2200 # 4].
Proof. vm_compute. reflexivity. Qed.

(** C7. When a timeout is set and its timer fires while the attempt loop
    is still suspended at one of its awaits, [retry] rejects with the
    timeout error, which is no error of the task and no result of it,
    whatever the loop settles with later; the loop itself runs on
    unchanged. *)
Theorem retry_timeout_preempts
        {T E : Type} (message : E -> string) (random : nat -> Q)
        (task : operation T E) (options : RetryOptions T E)
        (t : Q) (i : nat) :
  timeout options = Some t ->
  ~ t == 0 ->
  (i < awaits (trace (snd (retryPromise message random task options))))%nat ->
  let run := retry message random (Some i) task options in
  fst run = Rejected (NewError "Retry timeout exceeded") /\
  (forall e, fst run <> Rejected (Raised e)) /\
  (forall v, fst run <> Fulfilled v) /\
  snd run = snd (retryPromise message random task options).
Proof.
  intros Ht Hnonzero Hfirst run.
  assert (Hrun : fst run = Rejected (NewError "Retry timeout exceeded")).
  { subst run. unfold retry, truthy. rewrite Ht.
    destruct (Qeq_bool t 0) eqn:Hzero;
      [apply Qeq_bool_iff in Hzero; contradiction|].
    cbn [negb]. apply Nat.ltb_lt in Hfirst. rewrite Hfirst. reflexivity. }
  repeat split.
  - exact Hrun.
  - intros e He. rewrite Hrun in He. discriminate He.
  - intros v Hv. rewrite Hrun in Hv. discriminate Hv.
  - apply retry_state.
Qed.

(** The timeout test: timeout 150, a task that would succeed, the timer
    firing while the first invocation is awaited. *)
Lemma retry_timeout_preempts_witness :
  fst (retryPromise messageOf half succeedsFirst timed)
  = Fulfilled "Success"%string /\
  let run := retry messageOf half (Some 0%nat) succeedsFirst timed in
  fst run = Rejected (NewError "Retry timeout exceeded") /\
  (forall e, fst run <> Rejected (Raised e)) /\
  (forall v, fst run <> Fulfilled v) /\
  snd run = snd (retryPromise messageOf half succeedsFirst timed).
Proof.
  split; [vm_compute; reflexivity|].
  apply (@retry_timeout_preempts string string messageOf half
           succeedsFirst timed 150 0%nat).
  - reflexivity.
  - intros H. vm_compute in H. discriminate H.
  - vm_compute. lia.
Defined.

(** The loop does not read [timeout]. *)
Lemma retryLoop_withTimeout
      {T E : Type} (message : E -> string) (random : nat -> Q)
      (task : operation T E) (options : RetryOptions T E)
      (t : option Q) (s : State E) :
  retryLoop message random task (withTimeout t options) s
  = retryLoop message random task options s.
Proof.
  funelim (retryLoop message random task options s);
    rewrite retryLoop_turn; cbn [retries withTimeout];
    match goal with H : (_ <=? _)%Z = _ |- _ => rewrite H end.
  - reflexivity.
  - match goal with
    | H : iteration _ _ _ _ _ = _ |- _ =>
        change (iteration message random task (withTimeout t options) s)
          with (iteration message random task options s); rewrite H
    end.
    reflexivity.
  - match goal with
    | H : iteration _ _ _ _ _ = _ |- _ =>
        change (iteration message random task (withTimeout t options) s)
          with (iteration message random task options s); rewrite H
    end.
    auto.
Qed.

(** C10. A timeout of 0 is as no timeout at all: the test [if (timeout)]
    fails for both, no timer is armed and there is no race, so [retry] is
    the attempt loop alone, whenever the event loop would have run a
    timer. *)
Theorem retry_timeout_zero
        {T E : Type} (message : E -> string) (random : nat -> Q)
        (timerFiresAt : option nat)
        (task : operation T E) (options : RetryOptions T E) :
  retry message random timerFiresAt task (withTimeout (Some 0) options)
  = retry message random timerFiresAt task (withTimeout None options) /\
  retry message random timerFiresAt task (withTimeout (Some 0) options)
  = retryPromise message random task options /\
  retry message random timerFiresAt task (withTimeout None options)
  = retryPromise message random task options.
Proof.
  assert (Hloop : forall t,
             retryPromise message random task (withTimeout t options)
             = retryPromise message random task options).
  { intros t. unfold retryPromise.
    change (initial (withTimeout t options)) with (initial options).
    apply retryLoop_withTimeout. }
  unfold retry. cbn [timeout withTimeout truthy Qeq_bool negb].
  change (Qeq_bool 0 0) with true. cbn [negb].
  rewrite !Hloop. repeat split.
Qed.

(** C8, as stated, fails: with [retries = 0] the first failure exhausts the
    budget, no attempt is retried, and yet the counter has moved to 1. *)
Lemma attempt_counts_exhausting_failure :
  let run := retry messageOf half None persistentError (plain 0 100) in
  ~ (attempt (snd run) = Z.of_nat (retriedFailures (trace (snd run)))).
Proof. vm_compute. discriminate. Qed.

(** *** The ways a call ends *)

(** A call ends in one way at most. *)
Lemma endsIn_unique
      {T E : Type} (task : operation T E) (options : RetryOptions T E)
      (run : settled T (thrown E) * State E) (c c' : Terminal) :
  endsIn task options run c -> endsIn task options run c' -> c = c'.
Proof.
  destruct run as [r sf].
  destruct c, c'; cbn [endsIn fst snd]; intros H H'; try reflexivity;
    repeat match goal with
           | H : exists _, _ |- _ => destruct H
           | H : _ /\ _ |- _ => destruct H
           end;
    subst; congruence.
Qed.

(** With [retries >= 0] the attempt loop ends in a success value, a
    fallback value, a fallback error, a non-retryable error or an exhausted
    error. *)
Lemma retryPromise_endsIn
      {T E : Type} (message : E -> string) (random : nat -> Q)
      (task : operation T E) (options : RetryOptions T E) :
  (0 <= retries options)%Z ->
  exists c,
    In c [SuccessValue; FallbackValue; FallbackError; NonRetryableError;
          ExhaustedError] /\
    endsIn task options (retryPromise message random task options) c.
Proof.
  intros HR.
  destruct (retryPromise_last_turn message random task options HR)
    as (h & Hh & Hle & Hturn).
  destruct (retryPromise message random task options) as [r sf].
  cbn [fst snd] in *.
  pose proof (head_fallback Hh) as Hnone.
  assert (Hlast : forall evs,
             invocations evs = 1%nat ->
             pred (invocations (trace h ++ evs)) = invocations (trace h))
    by (intros evs Hevs; autorewrite with trace; lia).
  inversion Hturn; subst sf r; clear Hturn.
  - exists SuccessValue. split; [cbn; tauto|].
    cbn [endsIn fst snd]. rewrite trace_after, Hlast by reflexivity.
    exists v. autorewrite with trace. rewrite Hnone. auto.
  - exists NonRetryableError. split; [cbn; tauto|].
    cbn [endsIn fst snd]. rewrite trace_after, Hlast by reflexivity.
    exists e. autorewrite with trace. rewrite Hnone. auto.
  - exists ExhaustedError. split; [cbn; tauto|].
    cbn [endsIn fst snd]. rewrite trace_after, Hlast by reflexivity.
    exists e. autorewrite with trace. rewrite Hnone.
    pose proof (head_attempt Hh).
    cbn [invocations filter isTaskCall List.length].
    repeat split; auto; lia.
  - rewrite Hnone.
    destruct (fb 0%nat) as [v|e'] eqn:Hfb0.
    + exists FallbackValue. split; [cbn; tauto|].
      cbn [endsIn fst snd ofFallback]. rewrite trace_after.
      exists v, fb. autorewrite with trace. rewrite Hnone. auto.
    + exists FallbackError. split; [cbn; tauto|].
      cbn [endsIn fst snd ofFallback]. rewrite trace_after.
      exists e', fb. autorewrite with trace. rewrite Hnone. auto.
Qed.

(** A fallback that itself fails ends the call with the error of the
    fallback, which is none of the five enumerated outcomes. *)
Lemma failing_fallback_not_enumerated :
  let options := withFallback 0 fallbackFails in
  (0 <= retries options)%Z /\
  ~ (exists c,
        In c enumerated /\
        endsIn persistentError options
               (retry messageOf half None persistentError options) c).
Proof.
  split; [cbn; lia|].
  intros (c & Hin & Hends).
  assert (Herr : endsIn persistentError (withFallback 0 fallbackFails)
                        (retry messageOf half None persistentError
                               (withFallback 0 fallbackFails))
                        FallbackError).
  { cbn [endsIn]. exists "Fallback error"%string, fallbackFails.
    repeat split. }
  pose proof (endsIn_unique _ _ _ _ _ Hends Herr) as ->.
  cbn in Hin. intuition discriminate.
Qed.

(** On the runs of [Section Retry]: the throw after the loop is reached
    exactly when [retries < 0], and with [retries >= 0] the call ends in
    exactly one of the five enumerated ways or in the error of a failing
    fallback. *)
Lemma retry_terminal_outcomes
        {T E : Type} (message : E -> string) (random : nat -> Q)
        (timerFiresAt : option nat)
        (task : operation T E) (options : RetryOptions T E) :
  let run := retry message random timerFiresAt task options in
  (fst run = Rejected (NewError "Retry failed unexpectedly")
   <-> (retries options < 0)%Z) /\
  ((retries options < 0)%Z ->
   fst run = Rejected (NewError "Retry failed unexpectedly") /\
   invocations (trace (snd run)) = 0%nat) /\
  ((0 <= retries options)%Z ->
   exists c,
     In c (FallbackError :: enumerated) /\
     endsIn task options run c /\
     forall c', endsIn task options run c' -> c' = c).
Proof.
  intros run.
  assert (Hneg : (retries options < 0)%Z ->
                 fst run = Rejected (NewError "Retry failed unexpectedly") /\
                 invocations (trace (snd run)) = 0%nat).
  { intros HR. subst run. unfold retry.
    rewrite retryPromise_negative by assumption.
    destruct (truthy (timeout options)); [|split; reflexivity].
    destruct timerFiresAt as [i|]; split; reflexivity. }
  assert (Hpos : (0 <= retries options)%Z ->
                 exists c,
                   In c (FallbackError :: enumerated) /\
                   endsIn task options run c /\
                   forall c', endsIn task options run c' -> c' = c).
  { intros HR.
    assert (Hc : exists c, In c (FallbackError :: enumerated) /\
                           endsIn task options run c).
    { destruct (timerWins timerFiresAt options (trace (snd run))) eqn:Hwin.
      - exists TimeoutError. split; [cbn; tauto|].
        cbn [endsIn]. subst run. rewrite retry_result, Hwin. reflexivity.
      - destruct (retryPromise_endsIn message random task options HR)
          as (c & Hin & Hends).
        exists c. split; [cbn in *; tauto|].
        assert (Hrun : run = retryPromise message random task options).
        { subst run. apply injective_projections;
            [rewrite retry_result, Hwin; reflexivity | apply retry_state]. }
        rewrite Hrun. exact Hends. }
    destruct Hc as (c & Hin & Hends). exists c. repeat split; try assumption.
    intros c' Hends'. eapply endsIn_unique; eassumption. }
  repeat split.
  - intros Hrun.
    destruct (Z.lt_ge_cases (retries options) 0) as [|HR]; [assumption|].
    destruct (Hpos HR) as (c & Hin & _ & Huniq).
    rewrite <- (Huniq UnexpectedError Hrun) in Hin.
    cbn in Hin. intuition discriminate.
  - intros HR. apply Hneg. assumption.
  - apply Hneg. assumption.
  - apply Hneg. assumption.
  - assumption.
Qed.

(** The run of the logging test, [{ retries: 2, delay: 100 }] on a task
    that always throws: every line the test expects, in order, and the
    calls around them. *)
Example trace_of_two_retries :
  trace (snd (retry messageOf half None persistentError (plain 2 100)))
  = [ConsoleLog (TryingTask 1); TaskCall;
     RetryConditionCall "Persistent error"%string;
     ConsoleLog (TaskFailed 1 "Persistent error");
     OnRetryCall 1 "Persistent error"%string;
     ConsoleLog (WaitingBeforeRetry 1 100); SetTimeout 100;
     ConsoleLog (TryingTask 2); TaskCall;
     RetryConditionCall "Persistent error"%string;
     ConsoleLog (TaskFailed 2 "Persistent error");
     OnRetryCall 2 "Persistent error"%string;
     ConsoleLog (WaitingBeforeRetry 2 100); SetTimeout 100;
     ConsoleLog (TryingTask 3); TaskCall;
     RetryConditionCall "Persistent error"%string;
     ConsoleError (ExceededRetries 2)].
Proof. vm_compute. reflexivity. Qed.

(** The timeout test: the task is invoked once, the timer fires while that
    invocation is awaited, and the call fails with the timeout error. *)
Example timeout_of_the_test :
  retry messageOf half (Some 0%nat) succeedsFirst timed
  = (Rejected (NewError "Retry timeout exceeded"),
     {| attempt := 0; currentDelay := 100;
        trace := [ConsoleLog (TryingTask 1); TaskCall] |}).
Proof. vm_compute. reflexivity. Qed.

(** * Further properties of the attempt loop *)

Lemma tryingLogs_app {E : Type} (tr tr' : list (Event E)) :
  tryingLogs (tr ++ tr') = tryingLogs tr ++ tryingLogs tr'.
Proof.
  induction tr as [|ev tr IH]; [reflexivity|].
  destruct ev as [m|m| | | | | |]; try destruct m; cbn; rewrite ?IH;
    reflexivity.
Qed.

Lemma rejections_succ {T E : Type} (task : operation T E) (n : nat) :
  rejections task (S n)
  = rejections task n
    ++ match task n with Rejected e => [e] | Fulfilled _ => [] end.
Proof. reflexivity. Qed.

(** How a run of [retryPromise] ends: either [retries < 0] and nothing
    happened, or the last turn was taken from a state [h] of which the
    invariant holds. [last_turn_of] sets both cases up; in the second one
    the goal is about [after h _ _ evs] for the events of the last turn. *)
Ltac last_turn_of message random task options :=
  let HR := fresh "HR" in
  let h := fresh "h" in
  let Hh := fresh "Hh" in
  let Hle := fresh "Hle" in
  let Hturn := fresh "Hturn" in
  let r := fresh "r" in
  let sf := fresh "sf" in
  destruct (Z.lt_ge_cases (retries options) 0) as [HR|HR];
  [ rewrite (retryPromise_negative message random task options HR)
  | destruct (retryPromise_last_turn message random task options HR)
      as (h & Hh & Hle & Hturn);
    destruct (retryPromise message random task options) as [r sf];
    cbn [fst snd] in *;
    inversion Hturn; subst sf r; clear Hturn;
    rewrite ?trace_after, ?attempt_after, ?currentDelay_after ].

(** X4. [retryCondition] is consulted exactly once for each invocation of
    the task that rejects, in order and with the error of that invocation,
    and never for an invocation that fulfils. *)
Theorem retryCondition_calls_of_any_run
        {T E : Type} (message : E -> string) (random : nat -> Q)
        (timerFiresAt : option nat)
        (task : operation T E) (options : RetryOptions T E) :
  let tr := trace (snd (retry message random timerFiresAt task options)) in
  retryConditionCalls tr = rejections task (invocations tr).
Proof.
  cbv zeta. rewrite retry_state.
  last_turn_of message random task options; [reflexivity|..];
    autorewrite with trace;
    cbn [retryConditionCalls invocations filter isTaskCall List.length];
    rewrite Nat.add_1_r, rejections_succ, (head_conditions Hh);
    match goal with H : task _ = _ |- _ => rewrite H end; reflexivity.
Qed.

(** X5. The task is invoked again only after a rejection that
    [retryCondition] accepted: every invocation but the last was rejected
    with an accepted error. With [retries >= 0] there is at least one
    invocation. *)
Theorem earlier_attempts_failed_retryably
        {T E : Type} (message : E -> string) (random : nat -> Q)
        (timerFiresAt : option nat)
        (task : operation T E) (options : RetryOptions T E) :
  let tr := trace (snd (retry message random timerFiresAt task options)) in
  (forall i, (i < pred (invocations tr))%nat ->
             exists e, task i = Rejected e /\
                       retryCondition' options e = true) /\
  ((0 <= retries options)%Z -> (1 <= invocations tr)%nat).
Proof.
  cbv zeta. rewrite retry_state.
  last_turn_of message random task options.
  - split; [intros i Hi; cbn in Hi; lia | lia].
  - autorewrite with trace. cbn. rewrite Nat.add_1_r.
    split; [apply (head_failed Hh) | lia].
  - autorewrite with trace. cbn. rewrite Nat.add_1_r.
    split; [apply (head_failed Hh) | lia].
  - autorewrite with trace. cbn. rewrite Nat.add_1_r.
    split; [apply (head_failed Hh) | lia].
  - autorewrite with trace. cbn. rewrite Nat.add_1_r.
    split; [apply (head_failed Hh) | lia].
Qed.

Lemma earlier_attempts_failed_retryably_witness :
  let tr := trace (snd (retry messageOf half None succeedsThird
                              (plain 3 100))) in
  (forall i, (i < pred (invocations tr))%nat ->
             exists e, succeedsThird i = Rejected e /\
                       retryCondition' (plain 3 100) e = true) /\
  (1 <= invocations tr)%nat.
Proof.
  destruct (@earlier_attempts_failed_retryably string string messageOf half
              None succeedsThird (plain 3 100)) as [Hbefore Hone].
  split; [exact Hbefore|]. apply Hone. cbn. lia.
Defined.

(** X6. The fallback runs only when the retries are exhausted: it is
    invoked once when the run reports exhaustion and a fallback is
    configured, and not at all otherwise (not after a success, not after a
    refused error, not while attempts remain). Exhaustion is reported only
    after [retries + 1] invocations, the last of which was rejected with an
    accepted error. *)
Theorem fallback_only_on_exhaustion
        {T E : Type} (message : E -> string) (random : nat -> Q)
        (timerFiresAt : option nat)
        (task : operation T E) (options : RetryOptions T E) :
  let tr := trace (snd (retry message random timerFiresAt task options)) in
  fallbackCalls tr
  = (if exhausted tr
     then match fallback options with Some _ => 1 | None => 0 end
     else 0)%nat /\
  (exhausted tr = true ->
   Z.of_nat (invocations tr) = (retries options + 1)%Z /\
   exists e, task (pred (invocations tr)) = Rejected e /\
             retryCondition' options e = true).
Proof.
  cbv zeta. rewrite retry_state.
  last_turn_of message random task options.
  - split; [reflexivity | discriminate].
  - autorewrite with trace. rewrite (head_fallback Hh), (head_exhausted Hh).
    split; [reflexivity | discriminate].
  - autorewrite with trace. rewrite (head_fallback Hh), (head_exhausted Hh).
    split; [reflexivity | discriminate].
  - autorewrite with trace. rewrite (head_fallback Hh), (head_exhausted Hh).
    pose proof (head_attempt Hh).
    match goal with H : fallback options = _ |- _ => rewrite H end.
    cbn. rewrite Nat.add_1_r. split; [reflexivity|]. intros _.
    split; [lia|]. eauto.
  - autorewrite with trace. rewrite (head_fallback Hh), (head_exhausted Hh).
    pose proof (head_attempt Hh).
    match goal with H : fallback options = _ |- _ => rewrite H end.
    cbn. rewrite Nat.add_1_r. split; [reflexivity|]. intros _.
    split; [lia|]. eauto.
Qed.

Lemma fallback_only_on_exhaustion_witness :
  let tr := trace (snd (retry messageOf half None persistentError
                              (withFallback 3 fallbackResult))) in
  exhausted tr = true /\
  fallbackCalls tr = 1%nat /\
  Z.of_nat (invocations tr) = (3 + 1)%Z /\
  exists e, persistentError (pred (invocations tr)) = Rejected e /\
            retryCondition' (withFallback 3 fallbackResult) e = true.
Proof.
  destruct (@fallback_only_on_exhaustion string string messageOf half None
              persistentError (withFallback 3 fallbackResult))
    as [Hcalls Hexhausted].
  split; [vm_compute; reflexivity|].
  split; [rewrite Hcalls; vm_compute; reflexivity|].
  apply Hexhausted. vm_compute. reflexivity.
Defined.

(** X1. Without exponential back-off (the default), every wait is exactly
    the configured [delay], and [currentDelay] is never changed. *)
Theorem constant_delay_without_backoff
        {T E : Type} (message : E -> string) (random : nat -> Q)
        (timerFiresAt : option nat)
        (task : operation T E) (options : RetryOptions T E) :
  exponentialBackoff options <> Some true ->
  let run := retry message random timerFiresAt task options in
  Forall (fun d => d = delay options) (delays (trace (snd run))) /\
  currentDelay (snd run) = delay options.
Proof.
  intros Hoff. cbv zeta. rewrite retry_state.
  assert (Hoff' : exponentialBackoff' options = false).
  { unfold exponentialBackoff'.
    destruct (exponentialBackoff options) as [[|]|]; congruence. }
  unfold retryPromise.
  apply (@retryLoop_rule _ _ message random task options
           (fun s => Forall (fun d => d = delay options) (delays (trace s))
                     /\ currentDelay s = delay options)
           (fun rs => Forall (fun d => d = delay options)
                             (delays (trace (snd rs)))
                      /\ currentDelay (snd rs) = delay options)).
  - intros s Hs _. exact Hs.
  - intros s r s' [Hds Hcd] _ Hit. cbn [snd].
    pose proof (iteration_Turn message random task options s) as Hturn.
    rewrite Hit in Hturn.
    inversion Hturn; subst;
      rewrite trace_after, currentDelay_after; autorewrite with trace;
      cbn; rewrite app_nil_r; split; assumption.
  - intros s s' [Hds Hcd] _ Hit.
    pose proof (iteration_Turn message random task options s) as Hturn.
    rewrite Hit in Hturn. inversion Hturn; subst. clear Hturn.
    rewrite trace_after, currentDelay_after, Hoff'.
    autorewrite with trace. split; [|assumption].
    apply Forall_app. split; [assumption|].
    destruct (onRetry options); cbn; repeat constructor; assumption.
  - split; [constructor | reflexivity].
Qed.

Lemma constant_delay_without_backoff_witness :
  let run := retry messageOf half None persistentError (plain 3 100) in
  Forall (fun d => d = delay (plain 3 100)) (delays (trace (snd run))) /\
  currentDelay (snd run) = delay (plain 3 100).
Proof.
  apply (@constant_delay_without_backoff string string messageOf half None
           persistentError (plain 3 100)).
  cbn. discriminate.
Defined.

(** X10. The console carries one line [Attempt n: Trying task] per
    invocation of the task, numbered 1, 2, ... in order. *)
Theorem trying_lines_number_the_attempts
        {T E : Type} (message : E -> string) (random : nat -> Q)
        (timerFiresAt : option nat)
        (task : operation T E) (options : RetryOptions T E) :
  let tr := trace (snd (retry message random timerFiresAt task options)) in
  tryingLogs tr = map Z.of_nat (seq 1 (invocations tr)).
Proof.
  cbv zeta. rewrite retry_state. unfold retryPromise.
  assert (Hnext : forall n, seq 1 (n + 1) = seq 1 n ++ [S n])
    by (intros n; rewrite Nat.add_1_r, seq_S; reflexivity).
  apply (@retryLoop_rule _ _ message random task options
           (fun s => attempt s = Z.of_nat (invocations (trace s)) /\
                     tryingLogs (trace s)
                     = map Z.of_nat (seq 1 (invocations (trace s))))
           (fun rs => tryingLogs (trace (snd rs))
                      = map Z.of_nat (seq 1 (invocations (trace (snd rs)))))).
  - intros s [_ Hs] _. exact Hs.
  - intros s r s' [Hatt Hlogs] _ Hit. cbn [snd].
    pose proof (iteration_Turn message random task options s) as Hturn.
    rewrite Hit in Hturn.
    inversion Hturn; subst; rewrite trace_after;
      rewrite tryingLogs_app, invocations_app, Hlogs;
      cbn [tryingLogs invocations filter isTaskCall List.length];
      rewrite Hnext, map_app; cbn [map]; do 3 f_equal; lia.
  - intros s s' [Hatt Hlogs] _ Hit.
    pose proof (iteration_Turn message random task options s) as Hturn.
    rewrite Hit in Hturn. inversion Hturn; subst. clear Hturn.
    rewrite trace_after, attempt_after, tryingLogs_app, invocations_app, Hlogs.
    assert (Hone : invocations
                     ([ConsoleLog (TryingTask (attempt s + 1)); TaskCall;
                       RetryConditionCall e;
                       ConsoleLog (TaskFailed (attempt s + 1) (message e))] ++
                      (if onRetry options
                       then [OnRetryCall (attempt s + 1) e] else []) ++
                      [ConsoleLog (WaitingBeforeRetry (attempt s + 1)
                                     (currentDelay s));
                       SetTimeout (currentDelay s)] ++
                      (if exponentialBackoff' options
                       then [MathRandom] else [])) = 1%nat)
      by (destruct (onRetry options), (exponentialBackoff' options);
          reflexivity).
    assert (Hlog : tryingLogs
                     ([ConsoleLog (TryingTask (attempt s + 1)); TaskCall;
                       RetryConditionCall e;
                       ConsoleLog (TaskFailed (attempt s + 1) (message e))] ++
                      (if onRetry options
                       then [OnRetryCall (attempt s + 1) e] else []) ++
                      [ConsoleLog (WaitingBeforeRetry (attempt s + 1)
                                     (currentDelay s));
                       SetTimeout (currentDelay s)] ++
                      (if exponentialBackoff' options
                       then [MathRandom] else [])) = [(attempt s + 1)%Z])
      by (destruct (onRetry options), (exponentialBackoff' options);
          reflexivity).
    cbn [app] in *. rewrite Hone, Hlog, Hnext, map_app. cbn [map].
    split; [lia|]. do 3 f_equal. lia.
  - split; reflexivity.
Qed.

Section Agreement.
Context {T E : Type}.
Variable message : E -> string.
Variable random : nat -> Q.
Variables task1 task2 : operation T E.
Variable options : RetryOptions T E.

Hypothesis agree :
  forall i, (Z.of_nat i <= retries options)%Z -> task1 i = task2 i.

(** From a state in which [attempt] counts the invocations, the loop on
    [task1] and the loop on [task2] are the same. *)
Lemma retryLoop_agree (s : State E) :
  attempt s = Z.of_nat (invocations (trace s)) ->
  retryLoop message random task1 options s
  = retryLoop message random task2 options s.
Proof.
  remember (Z.to_nat (retries options + 1 - attempt s)) as n eqn:Hn.
  revert s Hn.
  induction n as [n IH] using lt_wf_ind. intros s Hn Hatt.
  rewrite (retryLoop_turn message random task1),
    (retryLoop_turn message random task2).
  destruct (Z.leb_spec (attempt s) (retries options)) as [Hle|_];
    [|reflexivity].
  assert (Hsame : iteration message random task1 options s
                  = iteration message random task2 options s).
  { unfold iteration. cbn [trace emit]. rewrite !invocations_app.
    cbn [invocations filter isTaskCall List.length].
    rewrite Nat.add_0_r, agree by lia. reflexivity. }
  rewrite Hsame.
  pose proof (iteration_Turn message random task2 options s) as Hturn.
  destruct (iteration message random task2 options s) as [r s'|s'];
    [reflexivity|].
  inversion Hturn; subst. clear Hturn.
  eapply IH; [|reflexivity|].
  - rewrite attempt_after. lia.
  - rewrite attempt_after, trace_after. autorewrite with trace.
    destruct (onRetry options), (exponentialBackoff' options); cbn; lia.
Qed.

End Agreement.

(** X9. [retry] looks at the first [retries + 1] invocations of the task
    only: two tasks that settle alike on these give the same call, with
    the same result, the same hooks and the same waits. *)
Theorem retry_reads_first_outcomes_only
        {T E : Type} (message : E -> string) (random : nat -> Q)
        (timerFiresAt : option nat)
        (task1 task2 : operation T E) (options : RetryOptions T E) :
  (forall i, (Z.of_nat i <= retries options)%Z -> task1 i = task2 i) ->
  retry message random timerFiresAt task1 options
  = retry message random timerFiresAt task2 options.
Proof.
  intros Hagree.
  assert (Hloop : retryPromise message random task1 options
                  = retryPromise message random task2 options)
    by (apply retryLoop_agree; [assumption | reflexivity]).
  unfold retry. rewrite Hloop. reflexivity.
Qed.

Lemma retry_reads_first_outcomes_only_witness :
  retry messageOf half None succeedsThird (plain 3 100)
  = retry messageOf half None succeedsThirdThenFails (plain 3 100).
Proof.
  apply retry_reads_first_outcomes_only.
  intros i Hi. cbn in Hi. unfold succeedsThirdThenFails.
  destruct (Nat.ltb_spec i 4) as [_|Hge]; [reflexivity | lia].
Defined.

Lemma numberedFrom_In {E : Type} (m : Z) (l : list E) (k : Z) (e : E) :
  In (k, e) (numberedFrom m l) ->
  (m <= k < m + Z.of_nat (List.length l))%Z /\ In e l.
Proof.
  revert m. induction l as [|x l IH]; intros m Hin; [destruct Hin|].
  cbn [numberedFrom] in Hin. destruct Hin as [[= <- <-]|Hin].
  - cbn [List.length]. split; [lia | left; reflexivity].
  - apply IH in Hin. cbn [List.length]. destruct Hin as [Hk He].
    split; [lia | right; assumption].
Qed.

(** X12. Every call [onRetry(n, e)] carries an error [e] that
    [retryCondition] accepted and an attempt number [n] between 1 and
    [retries]: the hook is never called for a refused error, nor for the
    failure that exhausts the retries. *)
Theorem onRetry_arguments
        {T E : Type} (message : E -> string) (random : nat -> Q)
        (timerFiresAt : option nat)
        (task : operation T E) (options : RetryOptions T E)
        (n : Z) (e : E) :
  In (n, e)
     (onRetryCalls
        (trace (snd (retry message random timerFiresAt task options)))) ->
  retryCondition' options e = true /\ (1 <= n <= retries options)%Z.
Proof.
  rewrite retry_state.
  assert (Hhead : forall h,
             Head task options h -> (attempt h <= retries options)%Z ->
             In (n, e) (onRetryCalls (trace h)) ->
             retryCondition' options e = true /\
             (1 <= n <= retries options)%Z).
  { intros h Hh Hle Hin. rewrite (head_hooks Hh) in Hin.
    destruct (onRetry options); [|destruct Hin].
    apply numberedFrom_In in Hin. destruct Hin as [Hn He].
    rewrite (head_rejections Hh) in Hn.
    pose proof (head_attempt Hh).
    rewrite <- (accepted_rejections (head_failed Hh)) in He.
    apply filter_In in He. split; [apply He | lia]. }
  last_turn_of message random task options.
  - intros [].
  - autorewrite with trace. cbn. rewrite app_nil_r. apply Hhead; assumption.
  - autorewrite with trace. cbn. rewrite app_nil_r. apply Hhead; assumption.
  - autorewrite with trace. cbn. rewrite app_nil_r. apply Hhead; assumption.
  - autorewrite with trace. cbn. rewrite app_nil_r. apply Hhead; assumption.
Qed.

Lemma onRetry_arguments_witness :
  retryCondition' (plain 3 100) "Transient error"%string = true /\
  (1 <= 2 <= retries (plain 3 100))%Z.
Proof.
  apply (@onRetry_arguments string string messageOf half None succeedsThird
           (plain 3 100) 2%Z "Transient error"%string).
  vm_compute. right. left. reflexivity.
Defined.

(** X11. With [retries = 0] the task is tried exactly once: there is no
    wait and no call of [onRetry], whatever the task does. *)
Theorem zero_retries_single_attempt
        {T E : Type} (message : E -> string) (random : nat -> Q)
        (timerFiresAt : option nat)
        (task : operation T E) (options : RetryOptions T E) :
  retries options = 0%Z ->
  let tr := trace (snd (retry message random timerFiresAt task options)) in
  invocations tr = 1%nat /\ delays tr = [] /\ onRetryCalls tr = [].
Proof.
  intros Hzero. cbv zeta. rewrite retry_state.
  assert (Hhead : forall h,
             Head task options h -> (attempt h <= retries options)%Z ->
             invocations (trace h) = 0%nat /\ delays (trace h) = [] /\
             onRetryCalls (trace h) = []).
  { intros h Hh Hle. pose proof (head_attempt Hh).
    assert (Hn : invocations (trace h) = 0%nat) by lia.
    split; [assumption|]. split.
    - apply length_zero_iff_nil. rewrite (head_delays Hh). assumption.
    - rewrite (head_hooks Hh), Hn. destruct (onRetry options); reflexivity. }
  last_turn_of message random task options; [lia|..];
    destruct (Hhead h Hh Hle) as (Hn & Hds & Hhooks);
    autorewrite with trace; rewrite Hn, Hds, Hhooks; repeat split.
Qed.

Lemma zero_retries_single_attempt_witness :
  let tr := trace (snd (retry messageOf half None persistentError
                              (plain 0 100))) in
  invocations tr = 1%nat /\ delays tr = [] /\ onRetryCalls tr = [].
Proof.
  apply (@zero_retries_single_attempt string string messageOf half None
           persistentError (plain 0 100)).
  reflexivity.
Defined.

(** * The loop with its throws *)

Section FullFacts.
Context {T E : Type}.
Variable message : E -> option string.
Variable onRetryThrows : Z -> E -> option E.
Variable retryConditionThrows : E -> option E.
Variable retriesIsNaN : bool.
Variable random : nat -> Q.
Variable task : operation T E.
Variable options : RetryOptions T E.

Lemma full_retryLoop_turn s :
  Full.retryLoop message onRetryThrows retryConditionThrows retriesIsNaN random
                 task options s =
  if Full.withinRetries retriesIsNaN options (attempt s) then
    match Full.iteration message onRetryThrows retryConditionThrows retriesIsNaN random
                         task options s with
    | Settle r s' => (r, s')
    | Continue s' =>
        Full.retryLoop message onRetryThrows retryConditionThrows retriesIsNaN random
                       task options s'
    end
  else (Rejected (NewError "Retry failed unexpectedly"), s).
Proof.
  funelim (Full.retryLoop message onRetryThrows retryConditionThrows
                          retriesIsNaN random task options s);
    match goal with H : Full.withinRetries _ _ _ = _ |- _ => rewrite H end;
    try match goal with
        | H : Full.iteration _ _ _ _ _ _ _ _ = _ |- _ => rewrite H
        end;
    reflexivity.
Qed.

(** With a numeric [retries], [Full.iteration] does what [Full.Turn]
    says. *)
Lemma full_iteration_Turn s :
  retriesIsNaN = false ->
  Full.Turn message onRetryThrows retryConditionThrows random task options s
    (Full.iteration message onRetryThrows retryConditionThrows retriesIsNaN random
                    task options s).
Proof.
  intros Hnumber.
  unfold Full.iteration. rewrite (emit_first s), !emit_after, trace_after.
  autorewrite with trace. cbn [invocations filter isTaskCall List.length app].
  rewrite Nat.add_0_r.
  destruct (task (invocations (trace s))) as [v|e] eqn:Htask.
  - apply Full.turn_fulfilled. assumption.
  - unfold Full.catchBlock, Full.wait, Full.beyondRetries, backoff.
    rewrite Hnumber. cbn [negb andb].
    destruct (Full.conditionThrows retryConditionThrows options e)
      as [x|] eqn:Hthrows.
    + rewrite !emit_after. cbn [app].
      apply Full.turn_condition_throws; assumption.
    + destruct (retryCondition' options e) eqn:Hcond; cbn [negb].
      * destruct (Z.gtb_spec (attempt s + 1) (retries options)) as [Hgt|Hle].
        -- destruct (fallback options) as [fb|] eqn:Hfb.
           ++ pose proof (@Full.turn_fallback _ _ message onRetryThrows
                            retryConditionThrows random task options
                            s e fb Htask Hthrows Hcond Hgt Hfb) as Hturn.
              unfold ofFallback in Hturn.
              repeat rewrite ?emit_after, ?setAttempt_after, ?attempt_after,
                ?currentDelay_after, ?trace_after.
              autorewrite with trace.
              cbn [fallbackCalls filter isFallbackCall List.length app].
              rewrite Nat.add_0_r.
              destruct (Z.gtb_spec (attempt s + 1) (retries options)); [|lia].
              destruct (fb (fallbackCalls (trace s))); exact Hturn.
           ++ repeat rewrite ?emit_after, ?setAttempt_after, ?attempt_after,
                ?currentDelay_after, ?trace_after.
              destruct (Z.gtb_spec (attempt s + 1) (retries options)); [|lia].
              apply Full.turn_exhausted; assumption.
        -- repeat rewrite ?emit_after, ?setAttempt_after, ?attempt_after,
             ?currentDelay_after, ?trace_after.
           destruct (Z.gtb_spec (attempt s + 1) (retries options)); [lia|].
           destruct (message e) as [text|] eqn:Hmessage.
           ++ destruct (onRetry options) eqn:Hhook.
              ** repeat rewrite ?emit_after, ?setAttempt_after,
                   ?attempt_after, ?currentDelay_after, ?trace_after.
                 destruct (onRetryThrows (attempt s + 1)%Z e) as [x|]
                   eqn:Hx.
                 --- cbn [app].
                     eapply Full.turn_hook_throws; eassumption.
                 --- pose proof (@Full.turn_retried _ _ message onRetryThrows
                                   retryConditionThrows random task options
                                   s e text Htask Hthrows Hcond Hle Hmessage
                                   (fun _ => Hx)) as Hturn.
                     rewrite Hhook in Hturn.
                     destruct (exponentialBackoff' options);
                       repeat rewrite ?emit_after, ?setAttempt_after,
                         ?attempt_after, ?currentDelay_after,
                         ?setCurrentDelay_after, ?trace_after;
                       autorewrite with trace;
                       cbn [draws filter isMathRandom List.length app] in *;
                       rewrite ?Nat.add_0_r; exact Hturn.
              ** assert (Hnone : false = true ->
                                 onRetryThrows (attempt s + 1)%Z e = None)
                   by discriminate.
                 pose proof (@Full.turn_retried _ _ message onRetryThrows
                               retryConditionThrows random task options
                               s e text Htask Hthrows Hcond Hle Hmessage)
                   as Hturn.
                 rewrite Hhook in Hturn. specialize (Hturn Hnone).
                 destruct (exponentialBackoff' options);
                   repeat rewrite ?emit_after, ?setAttempt_after,
                     ?attempt_after, ?currentDelay_after,
                     ?setCurrentDelay_after, ?trace_after;
                   autorewrite with trace;
                   cbn [draws filter isMathRandom List.length app] in *;
                   rewrite ?Nat.add_0_r; exact Hturn.
           ++ apply Full.turn_type_error; assumption.
      * rewrite !emit_after. cbn [app].
        apply Full.turn_aborted; assumption.
Qed.

End FullFacts.

Section FullLoop.
Context {T E : Type}.
Variable message : E -> option string.
Variable onRetryThrows : Z -> E -> option E.
Variable retryConditionThrows : E -> option E.
Variable retriesIsNaN : bool.
Variable random : nat -> Q.
Variable task : operation T E.
Variable options : RetryOptions T E.

(** The rule of the [while] loop, for the loop with its throws. The loop
    is left without a turn when [retries] is [NaN] or below [attempt]. *)
Lemma full_retryLoop_rule (I : State E -> Prop)
      (P : settled T (thrown E) * State E -> Prop) :
  (forall s, I s ->
             retriesIsNaN = true \/ (retries options < attempt s)%Z ->
             P (Rejected (NewError "Retry failed unexpectedly"), s)) ->
  (forall s r s', I s -> retriesIsNaN = false ->
                  (attempt s <= retries options)%Z ->
                  Full.Turn message onRetryThrows retryConditionThrows
                            random task options s (Settle r s') ->
                  P (r, s')) ->
  (forall s s', I s -> retriesIsNaN = false ->
                (attempt s <= retries options)%Z ->
                Full.Turn message onRetryThrows retryConditionThrows
                          random task options s (Continue s') ->
                I s') ->
  forall s, I s ->
            P (Full.retryLoop message onRetryThrows retryConditionThrows
                              retriesIsNaN random task options s).
Proof.
  intros Hexit Hsettle Hround s.
  remember (Z.to_nat (retries options + 1 - attempt s)) as n eqn:Hn.
  revert s Hn. induction n as [n IH] using lt_wf_ind. intros s Hn Hs.
  rewrite full_retryLoop_turn. unfold Full.withinRetries.
  destruct retriesIsNaN eqn:Hnumber; cbn [negb andb];
    [apply Hexit; auto|].
  destruct (Z.leb_spec (attempt s) (retries options)) as [Hle|Hgt];
    [|apply Hexit; auto].
  pose proof (full_iteration_Turn message onRetryThrows retryConditionThrows
                                  random task options s Hnumber) as Hturn.
  rewrite Hnumber in Hturn.
  destruct (Full.iteration _ _ _ _ _ _ _ s) as [r s'|s'].
  - eapply Hsettle; eauto.
  - eapply IH; [|reflexivity|eapply Hround; eauto].
    inversion Hturn; subst. rewrite attempt_after. lia.
Qed.

Lemma full_retry_state (timerFiresAt : option nat) :
  snd (Full.retry message onRetryThrows retryConditionThrows retriesIsNaN random
                  timerFiresAt task options)
  = snd (Full.retryPromise message onRetryThrows retryConditionThrows retriesIsNaN random
                           task options).
Proof.
  unfold Full.retry. destruct (truthy (timeout options)); [|reflexivity].
  destruct timerFiresAt as [i|]; [|reflexivity].
  destruct (i <? _)%nat; reflexivity.
Qed.

Lemma full_retry_result (timerFiresAt : option nat) :
  fst (Full.retry message onRetryThrows retryConditionThrows retriesIsNaN random
                  timerFiresAt task options)
  = if timerWins timerFiresAt options
         (trace (snd (Full.retry message onRetryThrows retryConditionThrows
                                 retriesIsNaN random timerFiresAt task options)))
    then Rejected (NewError "Retry timeout exceeded")
    else fst (Full.retryPromise message onRetryThrows retryConditionThrows
                                retriesIsNaN random task options).
Proof.
  rewrite full_retry_state. unfold Full.retry, timerWins.
  destruct (truthy (timeout options)); [|reflexivity].
  destruct timerFiresAt as [i|]; [|reflexivity]. cbn [andb].
  destruct (i <? _)%nat; reflexivity.
Qed.

(** *** When nothing is thrown in the [catch] block *)

Variable text : E -> string.

(** [retries] is a number. *)
Hypothesis numeric : retriesIsNaN = false.

(** On every invocation that the loop can reach (one within the budget,
    all the invocations before it having rejected) and that rejects:
    [retryCondition] returns, and if the attempt can still be retried the
    error has a message and [onRetry] returns. *)
Hypothesis normal :
  forall i e,
    (Z.of_nat i <= retries options)%Z ->
    (forall j, (j < i)%nat -> exists e', task j = Rejected e') ->
    task i = Rejected e ->
    Full.conditionThrows retryConditionThrows options e = None /\
    ((Z.of_nat i < retries options)%Z ->
     message e = Some (text e) /\
     onRetryThrows (Z.of_nat i + 1)%Z e = None).

(** Then the loop is the loop of [Section Retry]. *)
Lemma full_retryLoop_normal (s : State E) :
  attempt s = Z.of_nat (invocations (trace s)) ->
  (forall j, (j < invocations (trace s))%nat ->
             exists e', task j = Rejected e') ->
  Full.retryLoop message onRetryThrows retryConditionThrows retriesIsNaN random
                 task options s
  = retryLoop text random task options s.
Proof.
  remember (Z.to_nat (retries options + 1 - attempt s)) as n eqn:Hn.
  revert s Hn. induction n as [n IH] using lt_wf_ind. intros s Hn Hatt Hrej.
  rewrite full_retryLoop_turn, retryLoop_turn.
  unfold Full.withinRetries.
  replace (negb retriesIsNaN) with true by (rewrite numeric; reflexivity).
  cbn [andb].
  destruct (Z.leb_spec (attempt s) (retries options)) as [Hle|_];
    [|reflexivity].
  assert (Hsame : Full.iteration message onRetryThrows retryConditionThrows
                                 retriesIsNaN random task options s
                  = iteration text random task options s).
  { unfold Full.iteration, iteration. cbn [trace emit].
    rewrite !invocations_app.
    cbn [invocations filter isTaskCall List.length]. rewrite Nat.add_0_r.
    destruct (task (invocations (trace s))) as [v|e] eqn:Htask;
      [reflexivity|].
    assert (Hin : (Z.of_nat (invocations (trace s)) <= retries options)%Z)
      by lia.
    destruct (normal Hin Hrej Htask) as [Hreturns Hretry].
    unfold Full.catchBlock, catchBlock, Full.wait, Full.beyondRetries.
    rewrite Hreturns.
    replace (negb retriesIsNaN) with true by (rewrite numeric; reflexivity).
    cbn [andb].
    destruct (negb (retryCondition' options e)); [reflexivity|].
    cbn [attempt setAttempt emit].
    destruct (Z.gtb_spec (attempt s + 1) (retries options)); [reflexivity|].
    destruct Hretry as [Hmessage Hhook]; [lia|].
    rewrite Hmessage. cbn [attempt setAttempt emit].
    replace (attempt s + 1)%Z with (Z.of_nat (invocations (trace s)) + 1)%Z
      by lia.
    rewrite Hhook. destruct (onRetry options); reflexivity. }
  rewrite Hsame.
  pose proof (iteration_Turn text random task options s) as Hturn.
  destruct (iteration text random task options s) as [r s'|s'];
    [reflexivity|].
  inversion Hturn; subst. clear Hturn.
  match goal with |- _ = retryLoop _ _ _ _ ?s' => set (s1 := s') end.
  assert (Hatt1 : attempt s1 = (attempt s + 1)%Z) by reflexivity.
  assert (Hinv : invocations (trace s1) = S (invocations (trace s))).
  { subst s1. rewrite trace_after. autorewrite with trace.
    destruct (onRetry options), (exponentialBackoff' options); cbn; lia. }
  eapply IH; [|reflexivity| |].
  - lia.
  - lia.
  - rewrite Hinv. intros j Hj.
    assert (j < invocations (trace s) \/ j = invocations (trace s))%nat
      as [Hj'| ->] by lia; [apply Hrej; assumption | eauto].
Qed.

Lemma full_retry_normal (timerFiresAt : option nat) :
  Full.retry message onRetryThrows retryConditionThrows retriesIsNaN random
             timerFiresAt task options
  = retry text random timerFiresAt task options.
Proof.
  assert (Hloop : Full.retryPromise message onRetryThrows
                                    retryConditionThrows retriesIsNaN random task options
                  = retryPromise text random task options)
    by (apply full_retryLoop_normal;
        [reflexivity | intros j Hj; inversion Hj]).
  unfold Full.retry, retry. rewrite Hloop. reflexivity.
Qed.

End FullLoop.

Lemma full_accepts_true
      {T E : Type} (retryConditionThrows : E -> option E)
      (options : RetryOptions T E) (e : E) :
  Full.accepts retryConditionThrows options e = true ->
  Full.conditionThrows retryConditionThrows options e = None /\
  retryCondition' options e = true.
Proof.
  unfold Full.accepts.
  destruct (Full.conditionThrows retryConditionThrows options e);
    [discriminate | auto].
Qed.

Lemma textOf_message {E : Type} (message : E -> option string) (e : E) :
  message e <> None -> message e = Some (textOf message e).
Proof. unfold textOf. destruct (message e); congruence. Qed.

(** C2, as stated, fails on the code in two ways. A task that throws
    [null] is invoked once and the call rejects with the [TypeError] of
    line 49, instead of [retries + 1] invocations and the last error; and
    an [onRetry] that throws ends the call at its first call, with its own
    error. *)
Lemma always_failing_not_retried :
  (let run := Full.retry messageOrNull returns2 returns1 false half None
                         throwsNull (plainJs 3 100) in
   invocations (trace (snd run)) = 1%nat /\
   fst run = Rejected TypeError /\
   ~ (invocations (trace (snd run)) = (Z.to_nat 3 + 1)%nat)) /\
  (let run := Full.retry messageOrNull hookFails returns1 false half None
                         persistentErrorJs (plainJs 3 100) in
   invocations (trace (snd run)) = 1%nat /\
   onRetryCalls (trace (snd run))
   = [(1%Z, Some "Persistent error"%string)] /\
   fst run = Rejected (Raised (Some "Hook failed"%string)) /\
   ~ (invocations (trace (snd run)) = (Z.to_nat 3 + 1)%nat)).
Proof. vm_compute. repeat split; discriminate. Qed.

(** C2, amended. An operation that fails on every invocation with an
    error that is not [null] or [undefined] and that [retryCondition]
    accepts (returning, not throwing), with an [onRetry] that returns,
    [retries] a number [R >= 0], no fallback and no timeout that fires
    first: the
    operation is invoked exactly [R + 1] times, [onRetry] (when supplied)
    exactly [R] times, with the attempt numbers 1..R and the errors of the
    first [R] attempts, hence not for the last failure, and [retry] rejects
    with the error of the last attempt as it is. *)
Theorem full_retry_always_failing
        {T E : Type} (message : E -> option string)
        (onRetryThrows : Z -> E -> option E)
        (retryConditionThrows : E -> option E)
        (retriesIsNaN : bool)
        (random : nat -> Q) (timerFiresAt : option nat)
        (task : operation T E) (options : RetryOptions T E)
        (err : nat -> E) :
  retriesIsNaN = false ->
  (0 <= retries options)%Z ->
  fallback options = None ->
  (forall i, task i = Rejected (err i)) ->
  (forall i, Full.accepts retryConditionThrows options (err i) = true) ->
  (forall i, message (err i) <> None) ->
  (forall i, onRetryThrows (Z.of_nat i + 1)%Z (err i) = None) ->
  timerWins timerFiresAt options
    (trace (snd (Full.retry message onRetryThrows retryConditionThrows
                            retriesIsNaN random timerFiresAt task options))) = false ->
  let run := Full.retry message onRetryThrows retryConditionThrows
                        retriesIsNaN random timerFiresAt task options in
  let R := Z.to_nat (retries options) in
  invocations (trace (snd run)) = (R + 1)%nat /\
  onRetryCalls (trace (snd run))
  = (if onRetry options then numbered (map err (seq 0 R)) else []) /\
  List.length (onRetryCalls (trace (snd run)))
  = (if onRetry options then R else 0%nat) /\
  fst run = Rejected (Raised (err R)).
Proof.
  intros Hnumber HR Hfb Htask Hacc Hmessage Hhook Htimer.
  assert (Hnormal :
            forall i e,
              (Z.of_nat i <= retries options)%Z ->
              (forall j, (j < i)%nat -> exists e', task j = Rejected e') ->
              task i = Rejected e ->
              Full.conditionThrows retryConditionThrows options e = None /\
              ((Z.of_nat i < retries options)%Z ->
               message e = Some (textOf message e) /\
               onRetryThrows (Z.of_nat i + 1)%Z e = None)).
  { intros i e _ _ He. rewrite Htask in He. injection He as <-.
    split; [apply (full_accepts_true _ _ _ (Hacc i))|].
    intros _. split; [apply textOf_message, Hmessage | apply Hhook]. }
  rewrite (full_retry_normal message onRetryThrows retryConditionThrows
             random task options (textOf message) Hnumber Hnormal) in *.
  apply retry_always_failing; try assumption.
  intros i. apply (full_accepts_true _ _ _ (Hacc i)).
Qed.

Lemma full_retry_always_failing_witness :
  let run := Full.retry messageOrNull returns2 returns1 false half None
                        persistentErrorJs (plainJs 3 100) in
  invocations (trace (snd run)) = 4%nat /\
  onRetryCalls (trace (snd run))
  = [(1%Z, Some "Persistent error"%string);
     (2%Z, Some "Persistent error"%string);
     (3%Z, Some "Persistent error"%string)] /\
  List.length (onRetryCalls (trace (snd run))) = 3%nat /\
  fst run = Rejected (Raised (Some "Persistent error"%string)).
Proof.
  apply (@full_retry_always_failing string (option string) messageOrNull
           returns2 returns1 false half None persistentErrorJs (plainJs 3 100)
           (fun _ => Some "Persistent error"%string)).
  - reflexivity.
  - cbn. lia.
  - reflexivity.
  - intros i. reflexivity.
  - intros i. reflexivity.
  - intros i. discriminate.
  - intros i. reflexivity.
  - vm_compute. reflexivity.
Defined.

(** C3, as stated, fails on the code in two ways. A task that throws
    [null] and would succeed on its second attempt is invoked once and the
    call rejects with the [TypeError] of line 49; and an [onRetry] that
    throws ends the call before the second attempt. *)
Lemma second_attempt_not_reached :
  (nullThenSuccess 1%nat = Fulfilled "Success"%string /\
   let run := Full.retry messageOrNull returns2 returns1 false half None
                         nullThenSuccess (plainJs 3 100) in
   invocations (trace (snd run)) = 1%nat /\
   fst run = Rejected TypeError /\
   ~ (fst run = Fulfilled "Success"%string)) /\
  (succeedsSecondJs 1%nat = Fulfilled "Success"%string /\
   let run := Full.retry messageOrNull hookFails returns1 false half None
                         succeedsSecondJs (plainJs 3 100) in
   invocations (trace (snd run)) = 1%nat /\
   fst run = Rejected (Raised (Some "Hook failed"%string)) /\
   ~ (fst run = Fulfilled "Success"%string)).
Proof. vm_compute. repeat split; discriminate. Qed.

(** C3, amended. An operation that succeeds on attempt [k <= retries + 1]
    ([retries] a number), having failed on the attempts before with errors that are not [null]
    or [undefined] and that [retryCondition] accepts (returning, not
    throwing), with an [onRetry] that returns and no timeout that fires
    first: [retry] returns the result of attempt [k], the operation is
    invoked exactly [k] times, [onRetry] (when supplied) exactly [k - 1]
    times, there are [k - 1] waits, and the successful invocation is the
    last thing the loop does. For [k = 1]: one invocation, no delay, no
    hook call. *)
Theorem full_retry_succeeds_on_attempt
        {T E : Type} (message : E -> option string)
        (onRetryThrows : Z -> E -> option E)
        (retryConditionThrows : E -> option E)
        (retriesIsNaN : bool)
        (random : nat -> Q) (timerFiresAt : option nat)
        (task : operation T E) (options : RetryOptions T E)
        (k : nat) (v : T) (err : nat -> E) :
  retriesIsNaN = false ->
  (1 <= k)%nat ->
  (Z.of_nat k <= retries options + 1)%Z ->
  task (k - 1)%nat = Fulfilled v ->
  (forall i, (i < k - 1)%nat ->
             task i = Rejected (err i) /\
             Full.accepts retryConditionThrows options (err i) = true /\
             message (err i) <> None /\
             onRetryThrows (Z.of_nat i + 1)%Z (err i) = None) ->
  timerWins timerFiresAt options
    (trace (snd (Full.retry message onRetryThrows retryConditionThrows
                            retriesIsNaN random timerFiresAt task options))) = false ->
  let run := Full.retry message onRetryThrows retryConditionThrows
                        retriesIsNaN random timerFiresAt task options in
  fst run = Fulfilled v /\
  invocations (trace (snd run)) = k /\
  onRetryCalls (trace (snd run))
  = (if onRetry options then numbered (map err (seq 0 (k - 1))) else []) /\
  List.length (onRetryCalls (trace (snd run)))
  = (if onRetry options then (k - 1)%nat else 0%nat) /\
  List.length (delays (trace (snd run))) = (k - 1)%nat /\
  (exists tr, trace (snd run) = tr ++ [TaskCall]) /\
  (k = 1%nat ->
   invocations (trace (snd run)) = 1%nat /\
   delays (trace (snd run)) = [] /\
   onRetryCalls (trace (snd run)) = []).
Proof.
  intros Hnumber Hk HkR Hv Hbefore Htimer.
  assert (Hnormal :
            forall i e,
              (Z.of_nat i <= retries options)%Z ->
              (forall j, (j < i)%nat -> exists e', task j = Rejected e') ->
              task i = Rejected e ->
              Full.conditionThrows retryConditionThrows options e = None /\
              ((Z.of_nat i < retries options)%Z ->
               message e = Some (textOf message e) /\
               onRetryThrows (Z.of_nat i + 1)%Z e = None)).
  { (* the loop meets the attempts before [k] only *)
    intros i e _ Hrej He.
    assert (Hi : (i < k - 1)%nat).
    { destruct (Nat.lt_trichotomy i (k - 1)) as [Hlt|[->|Hgt]];
        [assumption | congruence |].
      destruct (Hrej _ Hgt) as (e' & He'). congruence. }
    destruct (Hbefore i Hi) as (Hrejected & Hacc & Hmessage & Hhook).
    rewrite Hrejected in He. injection He as <-.
    split; [apply (full_accepts_true _ _ _ Hacc)|].
    intros _. split; [apply textOf_message, Hmessage | apply Hhook]. }
  rewrite (full_retry_normal message onRetryThrows retryConditionThrows
             random task options (textOf message) Hnumber Hnormal) in *.
  apply retry_succeeds_on_attempt; try assumption.
  intros i Hi. destruct (Hbefore i Hi) as (Hrejected & Hacc & _).
  split; [assumption | apply (full_accepts_true _ _ _ Hacc)].
Qed.

Lemma full_retry_succeeds_on_attempt_witness :
  let run := Full.retry messageOrNull returns2 returns1 false half None
                        succeedsSecondJs (plainJs 3 100) in
  fst run = Fulfilled "Success"%string /\
  invocations (trace (snd run)) = 2%nat /\
  onRetryCalls (trace (snd run)) = [(1%Z, Some "Transient error"%string)] /\
  List.length (onRetryCalls (trace (snd run))) = 1%nat /\
  List.length (delays (trace (snd run))) = 1%nat /\
  (exists tr, trace (snd run) = tr ++ [TaskCall]) /\
  (2%nat = 1%nat ->
   invocations (trace (snd run)) = 1%nat /\
   delays (trace (snd run)) = [] /\
   onRetryCalls (trace (snd run)) = []).
Proof.
  apply (@full_retry_succeeds_on_attempt string (option string)
           messageOrNull returns2 returns1 false half None succeedsSecondJs
           (plainJs 3 100) 2%nat "Success"%string
           (fun _ => Some "Transient error"%string)).
  - reflexivity.
  - lia.
  - cbn. lia.
  - reflexivity.
  - intros i Hi. assert (i = 0%nat) as -> by lia.
    repeat split; discriminate.
  - vm_compute. reflexivity.
Defined.

(** C8, amended. The attempt counter starts at 0 and is incremented
    exactly once per failure that [retryCondition] accepts (line 39, before
    the exhaustion test): once for each attempt that failed and was
    retried, and once more when no attempt follows the accepted failure,
    as for the failure that exhausts the retries. It is not incremented for
    a failure that [retryCondition] does not accept, nor on success. *)
Theorem full_attempt_counts_accepted_failures
        {T E : Type} (message : E -> option string)
        (onRetryThrows : Z -> E -> option E)
        (retryConditionThrows : E -> option E)
        (retriesIsNaN : bool)
        (random : nat -> Q) (timerFiresAt : option nat)
        (task : operation T E) (options : RetryOptions T E) :
  attempt (initial options) = 0%Z /\
  let run := Full.retry message onRetryThrows retryConditionThrows
                        retriesIsNaN random timerFiresAt task options in
  let tr := trace (snd run) in
  attempt (snd run)
  = Z.of_nat (Full.acceptedFailures retryConditionThrows options tr) /\
  (Z.of_nat (retriedFailures tr) <= attempt (snd run)
   <= Z.of_nat (retriedFailures tr) + 1)%Z /\
  (exhausted tr = true ->
   attempt (snd run) = (Z.of_nat (retriedFailures tr) + 1)%Z) /\
  (forall v, (1 <= invocations tr)%nat ->
             task (pred (invocations tr)) = Fulfilled v ->
             attempt (snd run) = Z.of_nat (retriedFailures tr)) /\
  (forall e, (1 <= invocations tr)%nat ->
             task (pred (invocations tr)) = Rejected e ->
             Full.accepts retryConditionThrows options e = false ->
             attempt (snd run) = Z.of_nat (retriedFailures tr)).
Proof.
  split; [reflexivity|]. cbv zeta. rewrite full_retry_state.
  unfold Full.retryPromise.
  apply (@full_retryLoop_rule _ _ message onRetryThrows retryConditionThrows
           retriesIsNaN random task options
           (fun s =>
              attempt s = Z.of_nat (invocations (trace s)) /\
              Full.acceptedFailures retryConditionThrows options (trace s)
              = invocations (trace s) /\
              exhausted (trace s) = false /\
              ((retriesIsNaN = false /\ (attempt s <= retries options)%Z) \/
               invocations (trace s) = 0%nat))
           (fun rs =>
              attempt (snd rs)
              = Z.of_nat (Full.acceptedFailures retryConditionThrows options
                            (trace (snd rs))) /\
              (Z.of_nat (retriedFailures (trace (snd rs)))
               <= attempt (snd rs)
               <= Z.of_nat (retriedFailures (trace (snd rs))) + 1)%Z /\
              (exhausted (trace (snd rs)) = true ->
               attempt (snd rs)
               = (Z.of_nat (retriedFailures (trace (snd rs))) + 1)%Z) /\
              (forall v, (1 <= invocations (trace (snd rs)))%nat ->
                         task (pred (invocations (trace (snd rs))))
                         = Fulfilled v ->
                         attempt (snd rs)
                         = Z.of_nat (retriedFailures (trace (snd rs)))) /\
              (forall e, (1 <= invocations (trace (snd rs)))%nat ->
                         task (pred (invocations (trace (snd rs))))
                         = Rejected e ->
                         Full.accepts retryConditionThrows options e = false ->
                         attempt (snd rs)
                         = Z.of_nat (retriedFailures (trace (snd rs)))))).
  - (* the loop is left at its first test only *)
    intros s (Hatt & Hacc & Hex & Hle) Hgt. cbn [snd].
    assert (Hzero : invocations (trace s) = 0%nat)
      by (destruct Hle as [[Hnumber Hle]|Hzero];
          [destruct Hgt; [congruence | lia] | exact Hzero]).
    unfold retriedFailures. rewrite Hacc, Hex, Hzero.
    repeat split; try lia; discriminate.
  - intros s r s' (Hatt & Hacc & Hex & _) Hnumber Hle Hturn. cbn [snd].
    unfold Full.acceptedFailures, retriedFailures in *.
    inversion Hturn; subst; clear Hturn;
      rewrite trace_after, attempt_after; autorewrite with trace;
      rewrite filter_app, length_app, Hacc, Hex;
      cbn [retryConditionCalls invocations filter isTaskCall List.length
             exhausted existsb isExceeded orb];
      unfold Full.accepts;
      repeat match goal with
             | H : Full.conditionThrows _ _ _ = _ |- _ => rewrite H
             | H : retryCondition' _ _ = _ |- _ => rewrite H
             end;
      cbn [List.length]; rewrite Nat.add_1_r; cbn [pred];
      (repeat split; try lia; try discriminate;
       intros; try lia;
       repeat match goal with
              | H : task _ = _, H' : task _ = _ |- _ =>
                  rewrite H in H'; inversion H'; subst; clear H'
              end;
       unfold Full.accepts in *;
       repeat match goal with
              | H : Full.conditionThrows _ _ _ = _ |- _ =>
                  rewrite H in *; clear H
              end;
       try congruence; try lia).
  - intros s s' (Hatt & Hacc & Hex & _) Hnumber Hle Hturn.
    inversion Hturn; subst; clear Hturn.
    unfold Full.acceptedFailures in *.
    rewrite trace_after, attempt_after. autorewrite with trace.
    rewrite filter_app, length_app, Hacc, Hex.
    assert (Haccepts : Full.accepts retryConditionThrows options e = true).
    { unfold Full.accepts.
      repeat match goal with
             | H : Full.conditionThrows _ _ _ = _ |- _ => rewrite H
             | H : retryCondition' _ _ = _ |- _ => rewrite H
             end.
      reflexivity. }
    destruct (onRetry options), (exponentialBackoff' options);
      cbn [app retryConditionCalls invocations filter isTaskCall List.length
             exhausted existsb isExceeded orb];
      rewrite Haccepts; cbn [List.length];
      repeat split; try lia; left; (split; [assumption | lia]).
  - repeat split; try reflexivity. right. reflexivity.
Qed.

Lemma full_attempt_counts_accepted_failures_witness :
  let run := Full.retry messageOrNull returns2 returns1 false half None
                        persistentErrorJs (plainJs 3 100) in
  exhausted (trace (snd run)) = true /\
  attempt (snd run) = (Z.of_nat (retriedFailures (trace (snd run))) + 1)%Z.
Proof.
  destruct (@full_attempt_counts_accepted_failures string (option string)
              messageOrNull returns2 returns1 false half None persistentErrorJs
              (plainJs 3 100)) as (_ & _ & _ & Hexhausted & _).
  split; [vm_compute; reflexivity|].
  apply Hexhausted. vm_compute. reflexivity.
Defined.

(** With a number [retries >= 0] the loop never reaches the throw that
    follows it, whatever is thrown in the [catch] block. *)
Lemma full_retryPromise_not_unexpected
      {T E : Type} (message : E -> option string)
      (onRetryThrows : Z -> E -> option E)
      (retryConditionThrows : E -> option E)
      (retriesIsNaN : bool)
      (random : nat -> Q)
      (task : operation T E) (options : RetryOptions T E) :
  retriesIsNaN = false ->
  (0 <= retries options)%Z ->
  fst (Full.retryPromise message onRetryThrows retryConditionThrows
                         retriesIsNaN random task options)
  <> Rejected (NewError "Retry failed unexpectedly").
Proof.
  intros Hnumber HR. unfold Full.retryPromise.
  apply (@full_retryLoop_rule _ _ message onRetryThrows retryConditionThrows
           retriesIsNaN random task options
           (fun s => (attempt s <= retries options)%Z)
           (fun rs => fst rs
                      <> Rejected (NewError "Retry failed unexpectedly"))).
  - intros s Hle [Hnan|Hgt]; [congruence | lia].
  - intros s r s' _ _ _ Hturn. cbn [fst].
    inversion Hturn; subst; try discriminate.
    unfold ofFallback. destruct (fb _); discriminate.
  - intros s s' _ _ _ Hturn. inversion Hturn; subst.
    rewrite attempt_after. assumption.
  - assumption.
Qed.

(** With [retries] [NaN] or negative the first test of the loop fails. *)
Lemma full_retryPromise_negative
      {T E : Type} (message : E -> option string)
      (onRetryThrows : Z -> E -> option E)
      (retryConditionThrows : E -> option E)
      (retriesIsNaN : bool)
      (random : nat -> Q)
      (task : operation T E) (options : RetryOptions T E) :
  retriesIsNaN = true \/ (retries options < 0)%Z ->
  Full.retryPromise message onRetryThrows retryConditionThrows
                    retriesIsNaN random task options
  = (Rejected (NewError "Retry failed unexpectedly"), initial options).
Proof.
  intros HR. unfold Full.retryPromise. rewrite full_retryLoop_turn.
  unfold Full.withinRetries.
  destruct retriesIsNaN; [reflexivity|]. cbn [negb andb].
  destruct HR as [HR|HR]; [discriminate|].
  destruct (Z.leb_spec (attempt (initial options)) (retries options))
    as [Hle|_]; [cbn in Hle; lia | reflexivity].
Qed.

(** C9, amended. The throw after the loop is reached exactly when
    [retries] is negative or [NaN], and then the operation is never
    invoked; with a number [retries >= 0], every call in which
    [retryCondition] and [onRetry] return and no rejection that is retried
    is [null] or [undefined] ends in exactly one of: a success value, a
    fallback value, the error of a failing fallback, a non-retryable error,
    an exhausted error, the timeout error. *)
Theorem full_retry_terminal_outcomes
        {T E : Type} (message : E -> option string)
        (onRetryThrows : Z -> E -> option E)
        (retryConditionThrows : E -> option E)
        (retriesIsNaN : bool)
        (random : nat -> Q) (timerFiresAt : option nat)
        (task : operation T E) (options : RetryOptions T E) :
  let run := Full.retry message onRetryThrows retryConditionThrows
                        retriesIsNaN random timerFiresAt task options in
  (fst run = Rejected (NewError "Retry failed unexpectedly")
   <-> (retriesIsNaN = true \/ (retries options < 0)%Z)) /\
  (retriesIsNaN = true \/ (retries options < 0)%Z ->
   fst run = Rejected (NewError "Retry failed unexpectedly") /\
   invocations (trace (snd run)) = 0%nat) /\
  (retriesIsNaN = false ->
   (0 <= retries options)%Z ->
   (forall i e,
       (Z.of_nat i <= retries options)%Z -> task i = Rejected e ->
       Full.conditionThrows retryConditionThrows options e = None /\
       ((Z.of_nat i < retries options)%Z ->
        message e <> None /\
        onRetryThrows (Z.of_nat i + 1)%Z e = None)) ->
   exists c,
     In c (FallbackError :: enumerated) /\
     endsIn task options run c /\
     forall c', endsIn task options run c' -> c' = c).
Proof.
  intros run.
  assert (Hneg : retriesIsNaN = true \/ (retries options < 0)%Z ->
                 fst run = Rejected (NewError "Retry failed unexpectedly") /\
                 invocations (trace (snd run)) = 0%nat).
  { intros HR. subst run. unfold Full.retry.
    rewrite full_retryPromise_negative by assumption.
    destruct (truthy (timeout options)); [|split; reflexivity].
    destruct timerFiresAt as [i|]; split; reflexivity. }
  split; [split|split].
  - intros Hrun.
    destruct retriesIsNaN eqn:Hnumber; [left; reflexivity|].
    destruct (Z.lt_ge_cases (retries options) 0) as [|HR];
      [right; assumption|].
    exfalso. subst run. rewrite full_retry_result in Hrun.
    destruct (timerWins _ _ _); [discriminate|].
    revert Hrun. apply full_retryPromise_not_unexpected;
      [reflexivity | assumption].
  - intros HR. apply Hneg. assumption.
  - exact Hneg.
  - intros Hnumber HR Hnormal. subst run.
    assert (Hnormal' :
              forall i e,
                (Z.of_nat i <= retries options)%Z ->
                (forall j, (j < i)%nat -> exists e', task j = Rejected e') ->
                task i = Rejected e ->
                Full.conditionThrows retryConditionThrows options e = None /\
                ((Z.of_nat i < retries options)%Z ->
                 message e = Some (textOf message e) /\
                 onRetryThrows (Z.of_nat i + 1)%Z e = None)).
    { intros i e Hi _ He. destruct (Hnormal i e Hi He) as [Hreturns Hretry].
      split; [assumption|]. intros Hlt. destruct (Hretry Hlt).
      split; [apply textOf_message|]; assumption. }
    rewrite (full_retry_normal message onRetryThrows retryConditionThrows
               random task options (textOf message) Hnumber Hnormal').
    apply retry_terminal_outcomes. assumption.
Qed.

Lemma full_retry_terminal_outcomes_witness :
  (let run := Full.retry messageOrNull returns2 returns1 false half None
                         persistentErrorJs (plainJs (-1) 100) in
   fst run = Rejected (NewError "Retry failed unexpectedly") /\
   invocations (trace (snd run)) = 0%nat) /\
  (let run := Full.retry messageOrNull returns2 returns1 true half None
                         persistentErrorJs (plainJs 3 100) in
   fst run = Rejected (NewError "Retry failed unexpectedly") /\
   invocations (trace (snd run)) = 0%nat) /\
  (let run := Full.retry messageOrNull returns2 returns1 false half None
                         persistentErrorJs (plainJs 3 100) in
   exists c,
     In c (FallbackError :: enumerated) /\
     endsIn persistentErrorJs (plainJs 3 100) run c /\
     forall c', endsIn persistentErrorJs (plainJs 3 100) run c' -> c' = c).
Proof.
  split; [|split].
  - apply (@full_retry_terminal_outcomes string (option string)
             messageOrNull returns2 returns1 false half None persistentErrorJs
             (plainJs (-1) 100)).
    right. cbn. lia.
  - apply (@full_retry_terminal_outcomes string (option string)
             messageOrNull returns2 returns1 true half None persistentErrorJs
             (plainJs 3 100)).
    left. reflexivity.
  - apply (@full_retry_terminal_outcomes string (option string)
             messageOrNull returns2 returns1 false half None persistentErrorJs
             (plainJs 3 100)).
    + reflexivity.
    + cbn. lia.
    + intros i e _ He. injection He as <-.
      split; [reflexivity|]. intros _. split; [discriminate | reflexivity].
Defined.

(** C9, as stated, fails in three ways: a fallback that itself fails
    ends the call with the error of the fallback, and a task that throws
    [null] ends it with a [TypeError], neither being one of the five
    enumerated outcomes; and with [retries] [NaN], which is not below 0,
    the throw after the loop is reached. *)
Lemma outcomes_not_enumerated :
  (let options := withFallback 0 fallbackFails in
   (0 <= retries options)%Z /\
   ~ (exists c,
         In c enumerated /\
         endsIn persistentError options
                (retry messageOf half None persistentError options) c)) /\
  (let options := plainJs 3 100 in
   (0 <= retries options)%Z /\
   ~ (exists c,
         In c enumerated /\
         endsIn throwsNull options
                (Full.retry messageOrNull returns2 returns1 false half None
                            throwsNull options) c)) /\
  (let run := Full.retry messageOrNull returns2 returns1 true half None
                         persistentErrorJs (plainJs 3 100) in
   Full.withinRetries true (plainJs 3 100) 0 = false /\
   Full.beyondRetries true (plainJs 3 100) 0 = false /\
   fst run = Rejected (NewError "Retry failed unexpectedly")).
Proof.
  split; [exact failing_fallback_not_enumerated|].
  split; [|vm_compute; repeat split; reflexivity].
  split; [cbn; lia|].
  intros (c & Hin & Hends).
  assert (Hr : fst (Full.retry messageOrNull returns2 returns1 false half None
                               throwsNull (plainJs 3 100))
               = Rejected TypeError) by (vm_compute; reflexivity).
  destruct c; cbn [endsIn] in Hends; rewrite Hr in Hends;
    repeat match goal with
           | H : exists _, _ |- _ => destruct H
           | H : _ /\ _ |- _ => destruct H
           end;
    discriminate.
Qed.

(** * Further properties of the loop with its throws *)

Lemma beats_app {E : Type} (tr tr' : list (Event E)) :
  beats (tr ++ tr') = beats tr ++ beats tr'.
Proof.
  induction tr as [|ev tr IH]; [reflexivity|].
  destruct ev; cbn; rewrite ?IH; reflexivity.
Qed.

Lemma rounds_snoc {A : Type} (x : list A) (n : nat) :
  concat (repeat x n) ++ x = concat (repeat x (S n)).
Proof.
  induction n as [|n IH]; [cbn; rewrite app_nil_r; reflexivity|].
  cbn [repeat concat] in *. rewrite <- app_assoc, IH. reflexivity.
Qed.

(** X3. The invocations of the task, the waits and the draws of
    [Math.random()] come in this order and no other: each invocation but
    the last is followed by exactly one wait, and with back-off by exactly
    one draw, before the next invocation; nothing of the kind follows the
    last invocation. This holds on every way out of the loop. *)
Theorem rhythm_of_any_run
        {T E : Type} (message : E -> option string)
        (onRetryThrows : Z -> E -> option E)
        (retryConditionThrows : E -> option E)
        (retriesIsNaN : bool)
        (random : nat -> Q) (timerFiresAt : option nat)
        (task : operation T E) (options : RetryOptions T E) :
  let tr := trace (snd (Full.retry message onRetryThrows
                                   retryConditionThrows retriesIsNaN random timerFiresAt
                                   task options)) in
  beats tr
  = concat (repeat (round options) (pred (invocations tr)))
    ++ (if (1 <=? invocations tr)%nat then [Attempt] else []).
Proof.
  cbv zeta. rewrite full_retry_state. unfold Full.retryPromise.
  apply (@full_retryLoop_rule _ _ message onRetryThrows retryConditionThrows
           retriesIsNaN random task options
           (fun s =>
              attempt s = Z.of_nat (invocations (trace s)) /\
              beats (trace s)
              = concat (repeat (round options) (invocations (trace s))) /\
              ((retriesIsNaN = false /\ (attempt s <= retries options)%Z) \/
               invocations (trace s) = 0%nat))
           (fun rs =>
              beats (trace (snd rs))
              = concat (repeat (round options)
                               (pred (invocations (trace (snd rs)))))
                ++ (if (1 <=? invocations (trace (snd rs)))%nat
                    then [Attempt] else []))).
  - intros s (Hatt & Hbeats & Hle) Hgt. cbn [snd].
    assert (Hzero : invocations (trace s) = 0%nat)
      by (destruct Hle as [[Hnumber Hle]|Hzero];
          [destruct Hgt; [congruence | lia] | exact Hzero]).
    rewrite Hbeats, Hzero. reflexivity.
  - intros s r s' (Hatt & Hbeats & _) Hnumber Hle Hturn. cbn [snd].
    inversion Hturn; subst; clear Hturn;
      rewrite trace_after, beats_app, invocations_app, Hbeats;
      cbn [beats invocations filter isTaskCall List.length];
      rewrite Nat.add_1_r; reflexivity.
  - intros s s' (Hatt & Hbeats & _) Hnumber Hle Hturn.
    inversion Hturn; subst; clear Hturn.
    rewrite trace_after, attempt_after.
    match goal with |- context [trace s ++ ?l] => set (evs := l) end.
    assert (Hone : invocations evs = 1%nat)
      by (subst evs;
          destruct (onRetry options), (exponentialBackoff' options);
          reflexivity).
    assert (Hround : beats evs = round options)
      by (subst evs; unfold round;
          destruct (onRetry options), (exponentialBackoff' options);
          reflexivity).
    rewrite beats_app, invocations_app, Hbeats, Hone, Hround, Nat.add_1_r,
      rounds_snoc.
    split; [lia|]. split; [reflexivity|]. left. split; [congruence | lia].
  - split; [reflexivity|]. split; [reflexivity|]. right. reflexivity.
Qed.

(** X2. With an [onRetry] that does not throw: it is called once for every
    invocation of the task but the last, in order, with the number of that
    attempt (from 1) and the error it failed with, and never for the last
    invocation, on every way out of the loop; it is never called when not
    supplied. *)
Theorem onRetry_calls_when_it_returns
        {T E : Type} (message : E -> option string)
        (onRetryThrows : Z -> E -> option E)
        (retryConditionThrows : E -> option E)
        (retriesIsNaN : bool)
        (random : nat -> Q) (timerFiresAt : option nat)
        (task : operation T E) (options : RetryOptions T E) :
  (forall n e, onRetryThrows n e = None) ->
  let tr := trace (snd (Full.retry message onRetryThrows
                                   retryConditionThrows retriesIsNaN random timerFiresAt
                                   task options)) in
  onRetryCalls tr
  = if onRetry options
    then numbered (rejections task (pred (invocations tr))) else [].
Proof.
  intros Hreturns. cbv zeta. rewrite full_retry_state.
  unfold Full.retryPromise.
  apply (@full_retryLoop_rule _ _ message onRetryThrows retryConditionThrows
           retriesIsNaN random task options
           (fun s =>
              attempt s = Z.of_nat (invocations (trace s)) /\
              List.length (rejections task (invocations (trace s)))
              = invocations (trace s) /\
              onRetryCalls (trace s)
              = (if onRetry options
                 then numbered (rejections task (invocations (trace s)))
                 else []) /\
              ((retriesIsNaN = false /\ (attempt s <= retries options)%Z) \/
               invocations (trace s) = 0%nat))
           (fun rs =>
              onRetryCalls (trace (snd rs))
              = if onRetry options
                then numbered (rejections task
                                 (pred (invocations (trace (snd rs)))))
                else [])).
  - intros s (Hatt & Hlen & Hhooks & Hle) Hgt. cbn [snd].
    assert (Hzero : invocations (trace s) = 0%nat)
      by (destruct Hle as [[Hnumber Hle]|Hzero];
          [destruct Hgt; [congruence | lia] | exact Hzero]).
    rewrite Hhooks, Hzero. reflexivity.
  - intros s r s' (Hatt & Hlen & Hhooks & _) Hnumber Hle Hturn. cbn [snd].
    inversion Hturn; subst; clear Hturn;
      try match goal with
          | H : onRetryThrows _ _ = Some _ |- _ =>
              rewrite Hreturns in H; discriminate H
          end;
      rewrite trace_after, onRetryCalls_app, invocations_app, Hhooks;
      cbn [onRetryCalls invocations filter isTaskCall List.length];
      rewrite app_nil_r, Nat.add_1_r; reflexivity.
  - intros s s' (Hatt & Hlen & Hhooks & _) Hnumber Hle Hturn.
    inversion Hturn; subst; clear Hturn.
    rewrite trace_after, attempt_after.
    match goal with |- context [trace s ++ ?l] => set (evs := l) end.
    assert (Hone : invocations evs = 1%nat)
      by (subst evs;
          destruct (onRetry options), (exponentialBackoff' options);
          reflexivity).
    assert (Hcalls : onRetryCalls evs
                     = if onRetry options
                       then [((attempt s + 1)%Z, e)] else [])
      by (subst evs;
          destruct (onRetry options), (exponentialBackoff' options);
          reflexivity).
    rewrite onRetryCalls_app, invocations_app, Hhooks, Hone, Hcalls,
      Nat.add_1_r, rejections_succ.
    match goal with H : task _ = Rejected e |- _ => rewrite H end.
    split; [lia|]. split; [rewrite length_app, Hlen; cbn; lia|].
    split; [|left; split; [congruence | lia]].
    destruct (onRetry options); [|reflexivity].
    rewrite numbered_snoc, Hlen. do 3 f_equal. lia.
  - split; [reflexivity|]. split; [reflexivity|].
    split; [cbn; destruct (onRetry options); reflexivity|].
    right. reflexivity.
Qed.

Lemma onRetry_calls_when_it_returns_witness :
  let tr := trace (snd (Full.retry messageOrNull returns2 returns1 false half None
                                   succeedsSecondJs (plainJs 3 100))) in
  onRetryCalls tr
  = if onRetry (plainJs 3 100)
    then numbered (rejections succeedsSecondJs (pred (invocations tr)))
    else [].
Proof.
  apply (@onRetry_calls_when_it_returns string (option string) messageOrNull
           returns2 returns1 false half None succeedsSecondJs (plainJs 3 100)).
  intros n e. reflexivity.
Defined.

(** X13. The first wait of a run is exactly the configured [delay],
    whether or not back-off is enabled: doubling and jitter are applied
    after a delay has been waited and reach the later waits only. A run
    with fewer than two invocations has no wait. *)
Theorem first_wait_is_the_delay
        {T E : Type} (message : E -> option string)
        (onRetryThrows : Z -> E -> option E)
        (retryConditionThrows : E -> option E)
        (retriesIsNaN : bool)
        (random : nat -> Q) (timerFiresAt : option nat)
        (task : operation T E) (options : RetryOptions T E) :
  let tr := trace (snd (Full.retry message onRetryThrows
                                   retryConditionThrows retriesIsNaN random timerFiresAt
                                   task options)) in
  hd_error (delays tr)
  = if (2 <=? invocations tr)%nat then Some (delay options) else None.
Proof.
  cbv zeta. rewrite full_retry_state. unfold Full.retryPromise.
  apply (@full_retryLoop_rule _ _ message onRetryThrows retryConditionThrows
           retriesIsNaN random task options
           (fun s =>
              attempt s = Z.of_nat (invocations (trace s)) /\
              ((retriesIsNaN = false /\ (attempt s <= retries options)%Z) \/
               invocations (trace s) = 0%nat) /\
              List.length (delays (trace s)) = invocations (trace s) /\
              (invocations (trace s) = 0%nat ->
               currentDelay s = delay options) /\
              ((1 <= invocations (trace s))%nat ->
               hd_error (delays (trace s)) = Some (delay options)))
           (fun rs =>
              hd_error (delays (trace (snd rs)))
              = if (2 <=? invocations (trace (snd rs)))%nat
                then Some (delay options) else None)).
  - intros s (Hatt & Hle & Hlen & _ & _) Hgt. cbn [snd].
    assert (Hzero : invocations (trace s) = 0%nat)
      by (destruct Hle as [[Hnumber Hle]|Hzero];
          [destruct Hgt; [congruence | lia] | exact Hzero]).
    rewrite Hzero in *. apply length_zero_iff_nil in Hlen. rewrite Hlen.
    reflexivity.
  - intros s r s' (Hatt & _ & Hlen & _ & Hhead) Hnumber Hle Hturn. cbn [snd].
    assert (Hsame : forall evs,
               delays evs = [] -> invocations evs = 1%nat ->
               hd_error (delays (trace s ++ evs))
               = if (2 <=? invocations (trace s ++ evs))%nat
                 then Some (delay options) else None).
    { intros evs Hnone Hone.
      rewrite delays_app, invocations_app, Hnone, Hone, app_nil_r.
      destruct (invocations (trace s)) as [|n] eqn:Hn.
      - apply length_zero_iff_nil in Hlen. rewrite Hlen. reflexivity.
      - rewrite Hhead by lia.
        destruct (Nat.leb_spec 2 (S n + 1)); [reflexivity | lia]. }
    inversion Hturn; subst; clear Hturn; rewrite trace_after;
      apply Hsame; reflexivity.
  - intros s s' (Hatt & _ & Hlen & Hfirst & Hhead) Hnumber Hle Hturn.
    inversion Hturn; subst; clear Hturn.
    rewrite trace_after, attempt_after, currentDelay_after.
    match goal with |- context [trace s ++ ?l] => set (evs := l) end.
    assert (Hone : invocations evs = 1%nat)
      by (subst evs;
          destruct (onRetry options), (exponentialBackoff' options);
          reflexivity).
    assert (Hwait : delays evs = [currentDelay s])
      by (subst evs;
          destruct (onRetry options), (exponentialBackoff' options);
          reflexivity).
    rewrite delays_app, invocations_app, Hone, Hwait, length_app, Hlen.
    cbn [List.length].
    split; [lia|]. split; [left; split; [congruence | lia]|]. split; [reflexivity|].
    split; [lia|]. intros _.
    destruct (invocations (trace s)) as [|n] eqn:Hn.
    + apply length_zero_iff_nil in Hlen. rewrite Hlen. cbn.
      rewrite Hfirst by reflexivity. reflexivity.
    + destruct (delays (trace s)) as [|d ds] eqn:Hds;
        [cbn in Hlen; lia|].
      cbn. rewrite <- (Hhead ltac:(lia)). reflexivity.
  - split; [reflexivity|]. split; [right; reflexivity|].
    split; [reflexivity|]. split; [reflexivity|]. cbn. lia.
Qed.

(** * The back-off *)

Section Jitter.
Context {T E : Type}.
Variable message : E -> option string.
Variable onRetryThrows : Z -> E -> option E.
Variable retryConditionThrows : E -> option E.
Variable retriesIsNaN : bool.
Variable random1 random2 : nat -> Q.
Variable task : operation T E.
Variable options : RetryOptions T E.
Variable k : nat.

(** The two sources of jitter give the same first [k] numbers. *)
Hypothesis agree : forall i, (i < k)%nat -> random1 i = random2 i.

Lemma sameWaits_no_wait (s1 s2 : State E) a1 d1 evs1 a2 d2 evs2 :
  sameWaits k s1 s2 -> delays evs1 = [] -> delays evs2 = [] ->
  sameWaits k (after s1 a1 d1 evs1) (after s2 a2 d2 evs2).
Proof.
  unfold sameWaits. intros [Hlen Hfirst] Hnone1 Hnone2.
  rewrite !trace_after, !delays_app, Hnone1, Hnone2, !app_nil_r.
  split; assumption.
Qed.

Lemma sameWaits_wait (s1 s2 : State E) a1 d1 evs1 a2 d2 evs2 :
  sameWaits k s1 s2 ->
  delays evs1 = [currentDelay s1] -> delays evs2 = [currentDelay s2] ->
  ((List.length (delays (trace s1)) <= k)%nat ->
   currentDelay s1 = currentDelay s2) ->
  sameWaits k (after s1 a1 d1 evs1) (after s2 a2 d2 evs2).
Proof.
  unfold sameWaits. intros [Hlen Hfirst] Hwait1 Hwait2 Hsame.
  rewrite !trace_after, !delays_app, Hwait1, Hwait2, !length_app.
  split; [cbn [List.length]; lia|].
  rewrite !firstn_app, Hfirst, <- Hlen. f_equal.
  destruct (Nat.le_gt_cases (List.length (delays (trace s1))) k) as [Hle|Hgt].
  - rewrite Hsame by assumption. reflexivity.
  - replace (S k - List.length (delays (trace s1)))%nat with 0%nat by lia.
    reflexivity.
Qed.

(** One turn of each loop, from states that are alike: both settle, or
    both go on to states that are alike. *)
Lemma full_Turn_alike (s1 s2 : State E) (st1 st2 : Step T E) :
  alike k s1 s2 ->
  Full.Turn message onRetryThrows retryConditionThrows random1 task options
            s1 st1 ->
  Full.Turn message onRetryThrows retryConditionThrows random2 task options
            s2 st2 ->
  match st1, st2 with
  | Settle _ s1', Settle _ s2' => sameWaits k s1' s2'
  | Continue s1', Continue s2' => alike k s1' s2'
  | _, _ => False
  end.
Proof.
  intros (Hatt & Hinv & Hdraws & Hle & Hwaits & Hsame) Hturn1 Hturn2.
  inversion Hturn1 as [v1 Ht1|e1 x1 Ht1 Hc1|e1 Ht1 Hc1 Hv1
                       |e1 Ht1 Hc1 Hv1 Hb1 Hf1|e1 fb1 Ht1 Hc1 Hv1 Hb1 Hf1
                       |e1 Ht1 Hc1 Hv1 Hb1 Hm1
                       |e1 text1 x1 Ht1 Hc1 Hv1 Hb1 Hm1 Ho1 Hh1
                       |e1 text1 Ht1 Hc1 Hv1 Hb1 Hm1 Hh1];
    inversion Hturn2 as [v2 Ht2|e2 x2 Ht2 Hc2|e2 Ht2 Hc2 Hv2
                         |e2 Ht2 Hc2 Hv2 Hb2 Hf2|e2 fb2 Ht2 Hc2 Hv2 Hb2 Hf2
                         |e2 Ht2 Hc2 Hv2 Hb2 Hm2
                         |e2 text2 x2 Ht2 Hc2 Hv2 Hb2 Hm2 Ho2 Hh2
                         |e2 text2 Ht2 Hc2 Hv2 Hb2 Hm2 Hh2];
    subst st1 st2;
    rewrite <- Hinv in Ht2; rewrite Ht1 in Ht2;
    try discriminate Ht2;
    try (injection Ht2 as <-);
    try rewrite <- Hatt in *;
    try congruence; try lia;
    try (match goal with
         | Ho : onRetry options = true,
           Hh : onRetry options = true -> _ |- _ =>
             specialize (Hh Ho); congruence
         end);
    try (apply sameWaits_no_wait; [assumption | reflexivity | reflexivity]).
  - (* both retry *)
    unfold alike. rewrite !attempt_after, !currentDelay_after, !trace_after.
    match goal with
    | |- context [trace s1 ++ ?l1] => set (evs1 := l1)
    end.
    match goal with
    | |- context [trace s2 ++ ?l2] => set (evs2 := l2)
    end.
    assert (Hone1 : invocations evs1 = 1%nat)
      by (subst evs1;
          destruct (onRetry options), (exponentialBackoff' options);
          reflexivity).
    assert (Hone2 : invocations evs2 = 1%nat)
      by (subst evs2;
          destruct (onRetry options), (exponentialBackoff' options);
          reflexivity).
    assert (Hdraw1 : draws evs1
                     = if exponentialBackoff' options then 1%nat else 0%nat)
      by (subst evs1;
          destruct (onRetry options), (exponentialBackoff' options);
          reflexivity).
    assert (Hdraw2 : draws evs2
                     = if exponentialBackoff' options then 1%nat else 0%nat)
      by (subst evs2;
          destruct (onRetry options), (exponentialBackoff' options);
          reflexivity).
    assert (Hwait1 : delays evs1 = [currentDelay s1])
      by (subst evs1;
          destruct (onRetry options), (exponentialBackoff' options);
          reflexivity).
    assert (Hwait2 : delays evs2 = [currentDelay s2])
      by (subst evs2;
          destruct (onRetry options), (exponentialBackoff' options);
          reflexivity).
    rewrite !invocations_app, !draws_app, !delays_app, !length_app,
      Hone1, Hone2, Hdraw1, Hdraw2, Hwait1.
    cbn [List.length].
    split; [reflexivity|]. split; [lia|]. split; [lia|].
    split; [destruct (exponentialBackoff' options); lia|].
    split; [apply sameWaits_wait; assumption|].
    intros Hk. rewrite Hsame by lia.
      destruct (exponentialBackoff' options); [|reflexivity].
      rewrite <- Hdraws, agree by lia. reflexivity.
Qed.

(** The two loops, from states that are alike, end having waited alike. *)
Lemma full_retryLoop_alike (s1 s2 : State E) :
  alike k s1 s2 ->
  sameWaits k
    (snd (Full.retryLoop message onRetryThrows retryConditionThrows
                         retriesIsNaN random1 task options s1))
    (snd (Full.retryLoop message onRetryThrows retryConditionThrows
                         retriesIsNaN random2 task options s2)).
Proof.
  remember (Z.to_nat (retries options + 1 - attempt s1)) as n eqn:Hn.
  revert s1 s2 Hn. induction n as [n IH] using lt_wf_ind.
  intros s1 s2 Hn Halike.
  assert (Hatt : attempt s1 = attempt s2) by apply Halike.
  rewrite !full_retryLoop_turn, <- Hatt.
  destruct (Full.withinRetries retriesIsNaN options (attempt s1)) eqn:Hguard;
    [|apply Halike].
  assert (Hnumber : retriesIsNaN = false)
    by (unfold Full.withinRetries in Hguard;
        destruct retriesIsNaN; [discriminate | reflexivity]).
  assert (Hin : (attempt s1 <= retries options)%Z)
    by (unfold Full.withinRetries in Hguard;
        apply andb_prop in Hguard; apply Z.leb_le, Hguard).
  pose proof (full_iteration_Turn message onRetryThrows retryConditionThrows
                random1 task options s1 Hnumber) as Hturn1.
  pose proof (full_iteration_Turn message onRetryThrows retryConditionThrows
                random2 task options s2 Hnumber) as Hturn2.
  pose proof (full_Turn_alike Halike Hturn1 Hturn2) as Hnext.
  destruct (Full.iteration message onRetryThrows retryConditionThrows
              retriesIsNaN random1 task options s1) as [r1 s1'|s1'];
    destruct (Full.iteration message onRetryThrows retryConditionThrows
                retriesIsNaN random2 task options s2) as [r2 s2'|s2'];
    try contradiction.
  - exact Hnext.
  - eapply IH; [|reflexivity|exact Hnext].
    inversion Hturn1; subst. rewrite attempt_after. lia.
Qed.

End Jitter.



(** The two runs of the witness wait 100, 250, 550 and 100, 250, 525: the
    second draw differs, and so does the third delay, and no delay before
    it. *)
Example second_draw_reaches_third_delay :
  delays (trace (snd (Full.retry messageOrNull returns2 returns1 false
                                 half None persistentErrorJs backingOffJs)))
  = [100; 500 # 2; 2200 # 4] /\
  delays (trace (snd (Full.retry messageOrNull returns2 returns1 false
                                 halfThenQuarter None persistentErrorJs
                                 backingOffJs)))
  = [100; 500 # 2; 4200 # 8].
Proof. vm_compute. split; reflexivity. Qed.

Section Binary64Facts.
Import PrimFloat.


End Binary64Facts.
